(** * qusly-core: the client facade over a pool of connection strategies

    A shallow embedding of [src/client.ts] (class [Client]) and the
    properties of its worker grouping, eligibility filter, transfer
    registry, abort paths and connect-time failures.

    The class talks to three kinds of collaborators: the task scheduler
    ([this.tasks], a [TasksManager]), the strategy instances of the pool
    ([this.workers]) and the listeners of its own notifications.  Each
    method is embedded as a computation over the client's fields that
    records, in program order, every call it makes to a collaborator,
    together with the fields as they are at that call.

    What the collaborators answer is an input of each method: the order
    and outcome in which awaited promises settle, the task identity and
    the scheduling decision of the scheduler, the results of a strategy.
    A listener is taken to return normally and not to call back into the
    client while a notification is emitted. *)

From Stdlib Require Import ZArith Lia Bool.
From stdpp Require Import base strings list gmap.

Local Open Scope string_scope.
Local Open Scope Z_scope.
Local Open Scope list_scope.

(* ===================================================================== *)
(** ** Values *)
(* ===================================================================== *)

(** [IClientWorkerGroup]: the three labels the client gives to workers. *)
Inductive IClientWorkerGroup := All | Misc | Transfer.

#[global] Instance IClientWorkerGroup_eq_dec : EqDecision IClientWorkerGroup.
Proof. solve_decision. Defined.

(** The string literal of a label, as it appears in the source. *)
Definition label (g : IClientWorkerGroup) : string :=
  match g with
  | All => "all"
  | Misc => "misc"
  | Transfer => "transfer"
  end.

(** A value of type [number] that may also be [null] (stored in the
    registry before dispatch) or [undefined] (what [Map.get] returns for a
    missing key). *)
Inductive JsNum := undefined | null | num (n : Z).

(** [x != null] of the source: loose inequality, false for both [null]
    and [undefined]. *)
Definition not_nullish (x : JsNum) : bool :=
  match x with
  | num _ => true
  | _ => false
  end.

(** Truthiness of an optional string ([!group] is its negation):
    [undefined] and the empty string are falsy. *)
Definition truthy_str (s : option string) : bool :=
  match s with
  | None => false
  | Some s => negb (String.eqb s "")
  end.

(** Truthiness of an optional boolean option ([!transferPool]). *)
Definition truthy_flag (b : option bool) : bool :=
  match b with
  | Some true => true
  | _ => false
  end.

(** [a === b] between a string and an optional string. *)
Definition strict_eq_str (a : string) (b : option string) : bool :=
  match b with
  | None => false
  | Some b => String.eqb a b
  end.

(** Modelled from the spec: [repeat] of [utils/array] is not under src/.
    [repeat item count] is the array of [count] copies of [item] that the
    grouping policy of the spec needs ("every Connection is labeled All",
    "the remainder are Transfer"); a count below 1 gives no copy. *)
Definition repeat {T : Type} (item : T) (count : Z) : list T :=
  replicate (Z.to_nat count) item.

(* ===================================================================== *)
(** ** [Map<number, number>]: the transfer registry *)
(* ===================================================================== *)

(** A JavaScript [Map] keeps its keys in insertion order, and [keys()]
    enumerates them in that order; [set] on a present key keeps its
    place. *)
Module JsMap.

Definition t := list (Z * JsNum).

Definition empty : t := [].

Fixpoint get (k : Z) (m : t) : JsNum :=
  match m with
  | [] => undefined
  | (k', v) :: m' => if Z.eqb k k' then v else get k m'
  end.

Fixpoint has (k : Z) (m : t) : bool :=
  match m with
  | [] => false
  | (k', _) :: m' => if Z.eqb k k' then true else has k m'
  end.

Fixpoint set (k : Z) (v : JsNum) (m : t) : t :=
  match m with
  | [] => [(k, v)]
  | (k', v') :: m' =>
      if Z.eqb k k' then (k, v) :: m' else (k', v') :: set k v m'
  end.

Fixpoint delete (k : Z) (m : t) : t :=
  match m with
  | [] => []
  | (k', v') :: m' =>
      if Z.eqb k k' then delete k m' else (k', v') :: delete k m'
  end.

Definition keys (m : t) : list Z := map fst m.

End JsMap.

(* ===================================================================== *)
(** ** The client's fields *)
(* ===================================================================== *)

(** [IConfig]: of a connection config the client reads only [protocol]. *)
Record IConfig := { protocol : string; host : string }.

(** [IOptions]: connection options, passed through to the strategy. *)
Record IOptions := { option_tag : nat }.

(** [IClientOptions]: [pool] is a number, here an integer (a pool size is
    a count of workers); [transferPool] is an optional flag. *)
Record IClientOptions := { pool : Z; transferPool : option bool }.

(** [typeof Strategy]: a strategy class that can be registered. *)
Inductive StrategyClass :=
  | FtpStrategy
  | SftpStrategy
  | CustomStrategy (name : string).

(** A strategy instance: [new strategy(config, connectionOptions)].
    [oid] is the identity of the object, so that two workers built from
    the same config remain two objects. *)
Record Strategy := {
  oid : nat;
  class : StrategyClass;
  s_config : option IConfig;
  s_options : option IOptions
}.

Record Client := {
  _config : option IConfig;
  _connectionOptions : option IOptions;
  options : IClientOptions;
  workers : list Strategy;
  transfers : JsMap.t;
  strategies : gmap string StrategyClass;  (* the table's own properties *)
  allocated : nat  (* number of strategy objects constructed so far *)
}.

(** Assignments to one field. *)

Definition with_config (v : option IConfig) (c : Client) : Client :=
  {| _config := v;
     _connectionOptions := _connectionOptions c;
     options := options c;
     workers := workers c;
     transfers := transfers c;
     strategies := strategies c;
     allocated := allocated c |}.

Definition with_connectionOptions (v : option IOptions) (c : Client)
  : Client :=
  {| _config := _config c;
     _connectionOptions := v;
     options := options c;
     workers := workers c;
     transfers := transfers c;
     strategies := strategies c;
     allocated := allocated c |}.

Definition with_workers (v : list Strategy) (c : Client) : Client :=
  {| _config := _config c;
     _connectionOptions := _connectionOptions c;
     options := options c;
     workers := v;
     transfers := transfers c;
     strategies := strategies c;
     allocated := allocated c |}.

Definition with_transfers (v : JsMap.t) (c : Client) : Client :=
  {| _config := _config c;
     _connectionOptions := _connectionOptions c;
     options := options c;
     workers := workers c;
     transfers := v;
     strategies := strategies c;
     allocated := allocated c |}.

Definition with_allocated (v : nat) (c : Client) : Client :=
  {| _config := _config c;
     _connectionOptions := _connectionOptions c;
     options := options c;
     workers := workers c;
     transfers := transfers c;
     strategies := strategies c;
     allocated := v |}.

Definition with_strategies (v : gmap string StrategyClass) (c : Client)
  : Client :=
  {| _config := _config c;
     _connectionOptions := _connectionOptions c;
     options := options c;
     workers := workers c;
     transfers := transfers c;
     strategies := v;
     allocated := allocated c |}.

(** The initial [strategies] table of the class. *)
Definition default_strategies : gmap string StrategyClass :=
  <["sftp" := SftpStrategy]>
    (<["ftps" := FtpStrategy]> (<["ftp" := FtpStrategy]> ∅)).

(** [constructor(options?)]: [{ pool: 1, ...options }]; a [pool] left out
    of [options] is 1. *)
Definition new_Client (pool_opt : option Z) (transferPool_opt : option bool)
  : Client :=
  {| _config := None;
     _connectionOptions := None;
     options := {| pool := default 1 pool_opt;
                   transferPool := transferPool_opt |};
     workers := [];
     transfers := JsMap.empty;
     strategies := default_strategies;
     allocated := O |}.

(** The table [strategies] is a plain object: [strategies c] holds its own
    properties, and its prototype is [Object.prototype], from which it
    inherits the members of these names. *)
Definition object_prototype_names : list string :=
  ["constructor"; "__defineGetter__"; "__defineSetter__"; "hasOwnProperty";
   "__lookupGetter__"; "__lookupSetter__"; "isPrototypeOf";
   "propertyIsEnumerable"; "toString"; "valueOf"; "__proto__";
   "toLocaleString"].

(** What [this.strategies[protocol]] evaluates to, when it is not
    [undefined]: a strategy class held as an own property; for
    ['constructor'], the function [Object]; for another inherited name, a
    method of [Object.prototype] or (for ['__proto__']) that prototype
    itself, none of which can be constructed. *)
Inductive Member :=
  | registered (s : StrategyClass)
  | Object_constructor
  | not_a_constructor.

Definition strategy_of (c : Client) (p : string) : option Member :=
  match strategies c !! p with
  | Some s => Some (registered s)
  | None =>
      if bool_decide (p = "constructor") then Some Object_constructor
      else if bool_decide (p ∈ object_prototype_names)
           then Some not_a_constructor
           else None
  end.

(** [registerProtocol]: [this.strategies[protocol] = strategy] creates or
    overwrites an own property, for every name but ['__proto__']: that
    assignment replaces the prototype of the table by the class, after
    which a lookup reaches the members of a class that is not under src/.
    The table of such a client is not described here ([None]). *)
Definition registerProtocol (p : string) (s : StrategyClass) (c : Client)
  : option Client :=
  if bool_decide (p = "__proto__") then None
  else Some (with_strategies (<[p := s]> (strategies c)) c).

(** [unregisterProtocol]: [delete this.strategies[protocol]] removes an
    own property and leaves what is inherited. *)
Definition unregisterProtocol (p : string) (c : Client) : Client :=
  with_strategies (base.delete p (strategies c)) c.

(* ===================================================================== *)
(** ** What a method does to its collaborators *)
(* ===================================================================== *)

(** A thrown or rejected value: [new Error(message)], a [TypeError] of
    the language with its message, a [RangeError] of Node with its code,
    or a failure reported by a collaborator. *)
Inductive Error :=
  | mkError (message : string)
  | TypeError (message : string)
  | RangeError (code : string)
  | Failure (code : nat).

(** [ITransfer]: [{ id: taskId, ...direction }]. *)
Record ITransfer := {
  transfer_id : Z;
  remotePath : string;
  localPath : string
}.

Record ITransferDirection := {
  dir_remotePath : string;
  dir_localPath : string
}.

(** The notifications of [IClientEvents] with their arguments. *)
Inductive Notification :=
  | ev_connect
  | ev_disconnect
  | transfer_new (t : ITransfer)
  | transfer_abort (ids : list Z)
  | transfer_finish (t : ITransfer)
  | transfer_progress (data progress : nat).

(** The methods of [this.tasks] that the client calls. *)
Inductive TasksCall :=
  | tasks_setWorkers (groups : list IClientWorkerGroup)
  | tasks_deleteAllTasks
  | tasks_deleteTasks (ids : list Z)
  | tasks_pauseWorkers (indexes : list JsNum)
  | tasks_resumeWorkers (indexes : list JsNum)
  | tasks_createTaskId
  | tasks_handle (group : option string) (taskId : option Z).

Inductive WorkerEvent := on_connect | on_disconnect | on_progress.

(** A stream handed to a strategy: created from a path by [fs], or given
    by the caller. *)
Inductive Stream :=
  | createWriteStream (path : string) (flags : string) (start : option Z)
  | createReadStream (path : string)
  | given (stream_path : string).

(** The descriptor passed to [instance.download] and [instance.upload]. *)
Record ITransferInfo := {
  info_id : Z;
  info_startAt : option Z;
  info_localPath : string;
  info_remotePath : string;
  info_totalBytes : Z
}.

(** The methods of a strategy instance that the client calls. *)
Inductive StrategyCall :=
  | s_on (e : WorkerEvent)
  | s_removeListener (e : WorkerEvent)
  | s_connect
  | s_disconnect
  | s_abort
  | s_size (path : string)
  | s_download (dest : Stream) (info : ITransferInfo)
  | s_upload (source : Stream) (info : ITransferInfo).

(** How a promise settles. *)
Inductive Outcome := fulfilled | rejected (e : Error).

(** What happens around a promise: a call on a strategy instance, the
    suspension of an await, the settlement of an awaited promise. *)
Inductive IoAction :=
  | Call (w : Strategy) (c : StrategyCall)
  | Suspend                            (* an await gives up control *)
  | Settled (i : nat) (o : Outcome).   (* the i-th awaited promise settles *)

Inductive Action :=
  | Emit (n : Notification)            (* this.emit(...) *)
  | Tasks (c : TasksCall)              (* this.tasks.<method>(...) *)
  | Construct (w : Strategy)           (* new strategy(...) *)
  | Io (a : IoAction)
  | Dispatched (workerIndex : Z).      (* the scheduler runs the callback *)

Coercion Io : IoAction >-> Action.

(** One step of a run: the action and the client's fields at that point
    (what a listener or collaborator called there can observe). *)
Record Obs := { act : Action; at_state : Client }.

(** How a method invocation ends: it returns, it throws (an async method
    rejects its promise), or it stays suspended at an await whose promise
    never settles. *)
Inductive Completion (A : Type) :=
  | Returned (a : A)
  | Thrown (e : Error)
  | Pending.
Arguments Returned {A} a.
Arguments Thrown {A} e.
Arguments Pending {A}.

(** A run of a method body: its completion, the fields afterwards and
    the steps it made. *)
Definition Run (A : Type) : Type := Completion A * Client * list Obs.

Definition completion {A : Type} (r : Run A) : Completion A := r.1.1.
Definition final {A : Type} (r : Run A) : Client := r.1.2.
Definition steps {A : Type} (r : Run A) : list Obs := r.2.
Definition actions {A : Type} (r : Run A) : list Action := map act (steps r).

(** The run [r] continuing after the steps [t]. *)
Definition prefixed {A : Type} (t : list Obs) (r : Run A) : Run A :=
  (completion r, final r, t ++ steps r).

(** A method body, from the fields it starts with. *)
Definition M (A : Type) : Type := Client -> Run A.

#[global] Instance M_ret : MRet M := fun A a c => (Returned a, c, []).

(** Sequencing: what follows a statement runs only when the statement
    returns; a throw or an await that never resumes ends the body. *)
#[global] Instance M_bind : MBind M := fun A B f m c =>
  match completion (m c) with
  | Returned a => prefixed (steps (m c)) (f a (final (m c)))
  | Thrown e => (Thrown e, final (m c), steps (m c))
  | Pending => (Pending, final (m c), steps (m c))
  end.

Definition perform (a : Action) : M unit :=
  fun c => (Returned tt, c, [{| act := a; at_state := c |}]).

Definition throw {A : Type} (e : Error) : M A :=
  fun c => (Thrown e, c, []).

Definition never {A : Type} : M A :=
  fun c => (Pending, c, []).

Definition this : M Client :=
  fun c => (Returned c, c, []).

Definition assign (f : Client -> Client) : M unit :=
  fun c => (Returned tt, f c, []).

(** [try { body } catch (err) { throw err } finally { fin }]: the catch
    clause rethrows what it caught, so the body's completion stands; the
    finally clause runs after a return and after a throw, and its own
    throw would replace the body's completion.  A body that never resumes
    never reaches it. *)
Definition try_rethrow_finally {A : Type} (body : M A) (fin : M unit) : M A :=
  fun c =>
    match completion (body c) with
    | Pending => (Pending, final (body c), steps (body c))
    | r =>
        let after := fin (final (body c)) in
        (match completion after with
         | Returned _ => r
         | Thrown e => Thrown e
         | Pending => Pending
         end,
         final after,
         steps (body c) ++ steps after)
    end.

(** [forEach] over an array. *)
Fixpoint forEach {T : Type} (f : T -> M unit) (l : list T) : M unit :=
  match l with
  | [] => mret tt
  | x :: l' => f x ;; forEach f l'
  end.

(** [for (let i = 0; i < pool; i++) body]: with [i] counting up from 0
    by 1 the body runs [Z.to_nat pool] times, never for [pool <= 0]. *)
Fixpoint times (n : nat) (body : M unit) : M unit :=
  match n with
  | O => mret tt
  | S n' => body ;; times n' body
  end.

(** [await Promise.all(promises)] for an array of [n] promises whose
    values are not used.  The environment settles promises in the order
    of [schedule], a list of (position in the array, outcome); a position
    outside the array or already settled is ignored, as a promise settles
    once.  [Promise.all] rejects with the first rejection, fulfils when
    every promise has fulfilled, and otherwise stays pending. *)
Fixpoint settle_all (waiting : list nat) (schedule : list (nat * Outcome))
  : list IoAction * Completion unit :=
  match waiting with
  | [] => ([], Returned tt)
  | _ :: _ =>
      match schedule with
      | [] => ([], Pending)
      | (i, o) :: rest =>
          if bool_decide (i ∈ waiting) then
            match o with
            | fulfilled =>
                let r := settle_all (filter (fun j => j ≠ i) waiting) rest in
                (Settled i fulfilled :: r.1, r.2)
            | rejected e => ([Settled i (rejected e)], Thrown e)
            end
          else settle_all waiting rest
      end
  end.

Definition await_all (n : nat) (schedule : list (nat * Outcome)) : M unit :=
  fun c =>
    let r := settle_all (seq 0 n) schedule in
    (r.2, c, map (fun a => {| act := Io a; at_state := c |}) (Suspend :: r.1)).

(* ===================================================================== *)
(** ** The pool: [createWorker], [setWorkers], [setWorkerGroups] *)
(* ===================================================================== *)

(** What [new strategy(config, connectionOptions)] gives: an instance of
    a strategy class, or, when [strategy] is the function [Object], the
    config object itself. *)
Inductive Worker :=
  | instance_of (w : Strategy)
  | the_config (cfg : IConfig).

(** [createWorker]: looks the protocol of the saved config up in
    [strategies]; an [undefined] member is reported, any other member is
    constructed with [new]. *)
Definition createWorker : M Worker :=
  c ← this;
  match _config c with
  | None => throw (TypeError "Cannot destructure property 'protocol' of 'this.config' as it is undefined.")
  | Some cfg =>
      match strategy_of c (protocol cfg) with
      | None =>
          throw (mkError ("Strategy for protocol " +:+ protocol cfg +:+ " not found."))
      | Some (registered strategy) =>
          let w := {| oid := allocated c;
                      class := strategy;
                      s_config := _config c;
                      s_options := _connectionOptions c |} in
          assign (with_allocated (S (allocated c))) ;;
          perform (Construct w) ;;
          mret (instance_of w)
      | Some Object_constructor => mret (the_config cfg)
      | Some not_a_constructor =>
          throw (TypeError "strategy is not a constructor")
      end
  end.

Definition handleWorkerEvents (instance : Strategy) : M unit :=
  perform (Call instance (s_on on_connect)) ;;
  perform (Call instance (s_on on_disconnect)) ;;
  perform (Call instance (s_on on_progress)).

Definition clearWorkerEvents (instance : Strategy) : M unit :=
  perform (Call instance (s_removeListener on_connect)) ;;
  perform (Call instance (s_removeListener on_disconnect)) ;;
  perform (Call instance (s_removeListener on_progress)).

(** The handlers attached to a worker forward its events. *)
Definition onConnect : M unit := perform (Emit ev_connect).

Definition onDisconnect : M unit := perform (Emit ev_disconnect).

Definition onProgress (data progress : nat) : M unit :=
  perform (Emit (transfer_progress data progress)).

(** The local array [groups] of [setWorkerGroups]. *)
Definition groups (pool : Z) (transferPool : option bool)
  : list IClientWorkerGroup :=
  if negb (truthy_flag transferPool) || (pool =? 1)
  then repeat All pool
  else Misc :: repeat Transfer (pool - 1).

Definition setWorkerGroups : M unit :=
  c ← this;
  perform (Tasks (tasks_setWorkers
                    (groups (pool (options c)) (transferPool (options c))))).

(** The body of the loop of [setWorkers].  On a worker that is no
    strategy instance, the first [instance.on] of [handleWorkerEvents]
    finds no such method. *)
Definition setWorkers_body : M unit :=
  worker ← createWorker;
  match worker with
  | instance_of w =>
      handleWorkerEvents w ;;
      c ← this;
      assign (with_workers (workers c ++ [w]))
  | the_config _ => throw (TypeError "instance.on is not a function")
  end.

Definition setWorkers : M unit :=
  c ← this;
  forEach clearWorkerEvents (workers c) ;;
  assign (with_workers []) ;;
  times (Z.to_nat (pool (options c))) setWorkers_body ;;
  setWorkerGroups.

(** [this.workers[index]]: [undefined] outside the array. *)
Definition getWorkerInstance (index : Z) (c : Client) : option Strategy :=
  if index <? 0 then None else workers c !! Z.to_nat index.

(** The scheduler's descriptor of a worker; the filter reads its
    [group]. *)
Record TaskWorker := { group : string }.

Definition workerFilter (worker : TaskWorker) (requested : option string)
  : bool :=
  String.eqb (group worker) "all"
  || (negb (truthy_str requested) && String.eqb (group worker) "misc")
  || strict_eq_str (group worker) requested.

(* ===================================================================== *)
(** ** [connect], [disconnect], [abort], [abortTransfer] *)
(* ===================================================================== *)

Definition disconnect (schedule : list (nat * Outcome)) : M unit :=
  c ← this;
  forEach (fun r => perform (Call r s_disconnect)) (workers c) ;;
  await_all (length (workers c)) schedule.

(** What the environment decides during a [connect]: how the
    [disconnect()] promises of the old workers and the [connect()]
    promises of the new ones settle. *)
Record ConnectEnv := {
  disconnecting : list (nat * Outcome);
  connecting : list (nat * Outcome)
}.

Definition connect (config : option IConfig) (opts : option IOptions)
    (env : ConnectEnv) : M unit :=
  c ← this;
  if negb (bool_decide (is_Some (_config c))) && negb (bool_decide (is_Some config))
  then throw (mkError "Config must be provided!")
  else
    disconnect (disconnecting env) ;;
    (if config is Some _ then assign (with_config config) else mret tt) ;;
    (if opts is Some _ then assign (with_connectionOptions opts) else mret tt) ;;
    setWorkers ;;
    c' ← this;
    forEach (fun r => perform (Call r s_connect)) (workers c') ;;
    await_all (length (workers c')) (connecting env).

Definition abort (schedule : list (nat * Outcome)) : M unit :=
  c ← this;
  perform (Emit (transfer_abort (JsMap.keys (transfers c)))) ;;
  perform (Tasks tasks_deleteAllTasks) ;;
  forEach (fun r => perform (Call r s_abort)) (workers c) ;;
  await_all (length (workers c)) schedule.

(** [this.workers[workerIndex]] for a registry value. *)
Definition worker_at (workerIndex : JsNum) (c : Client) : option Strategy :=
  match workerIndex with
  | num n => getWorkerInstance n c
  | _ => None
  end.

(** The [transferIds.forEach] of [abortTransfer], with the two local
    arrays it fills. *)
Fixpoint abortTransfer_forEach (transferIds : list Z)
    (workerIndexes : list JsNum) (instances : list (option Strategy))
  : M (list JsNum * list (option Strategy)) :=
  match transferIds with
  | [] => mret (workerIndexes, instances)
  | id :: rest =>
      c ← this;
      let workerIndex := JsMap.get id (transfers c) in
      let instances' :=
        if not_nullish workerIndex
        then instances ++ [worker_at workerIndex c]
        else instances in
      perform (Emit (transfer_abort [id])) ;;
      abortTransfer_forEach rest (workerIndexes ++ [workerIndex]) instances'
  end.

(** [r.abort()] on an element of [instances]; on [undefined] the property
    read throws. *)
Definition abort_instance (r : option Strategy) : M unit :=
  match r with
  | Some w => perform (Call w s_abort)
  | None => throw (TypeError "Cannot read properties of undefined (reading 'abort')")
  end.

Definition abortTransfer (transferIds : list Z)
    (schedule : list (nat * Outcome)) : M unit :=
  arrays ← abortTransfer_forEach transferIds [] [];
  let workerIndexes := arrays.1 in
  let instances := arrays.2 in
  perform (Tasks (tasks_deleteTasks transferIds)) ;;
  perform (Tasks (tasks_pauseWorkers workerIndexes)) ;;
  forEach abort_instance instances ;;
  await_all (length instances) schedule ;;
  perform (Tasks (tasks_resumeWorkers workerIndexes)).

(* ===================================================================== *)
(** ** Transfers: [handleTransfer], [download], [upload] *)
(* ===================================================================== *)

(** The argument of an operation callback: [{ instance, taskId,
    workerIndex }]. *)
Record TaskEvent := {
  instance : option Strategy;
  taskId : Z;
  workerIndex : Z
}.

(** An operation ([ITaskHandler<Strategy>]) works on the connection it is
    given and on nothing of the client: its run is the calls it makes and
    how it ends. *)
Definition Op (A : Type) : Type := list IoAction * Completion A.

#[global] Instance Op_ret : MRet Op := fun A a => ([], Returned a).

#[global] Instance Op_bind : MBind Op := fun A B f m =>
  match m with
  | (t1, Returned a) => (t1 ++ (f a).1, (f a).2)
  | (t1, Thrown e) => (t1, Thrown e)
  | (t1, Pending) => (t1, Pending)
  end.

(** Running an operation inside a method: the client's fields stay as
    they are. *)
Definition lift_op {A : Type} (o : Op A) : M A :=
  fun c => (o.2, c, map (fun a => {| act := Io a; at_state := c |}) o.1).

(** The name of the method that a call reads on the instance. *)
Definition method_name (c : StrategyCall) : string :=
  match c with
  | s_on _ => "on"
  | s_removeListener _ => "removeListener"
  | s_connect => "connect"
  | s_disconnect => "disconnect"
  | s_abort => "abort"
  | s_size _ => "size"
  | s_download _ _ => "download"
  | s_upload _ _ => "upload"
  end.

(** The [TypeError] of reading a method on an [undefined] instance. *)
Definition undefined_instance (c : StrategyCall) : Error :=
  TypeError ("Cannot read properties of undefined (reading '"
             +:+ method_name c +:+ "')").

(** [await instance.method(...)]: the call, the suspension, and the
    settlement chosen by the environment ([None]: the promise never
    settles).  A call on an [undefined] instance throws. *)
Definition await_call {A : Type} (r : option Strategy) (c : StrategyCall)
    (result : option (A + Error)) : Op A :=
  match r with
  | None => ([], Thrown (undefined_instance c))
  | Some w =>
      match result with
      | None => ([Call w c; Suspend], Pending)
      | Some (inl a) => ([Call w c; Suspend; Settled 0 fulfilled], Returned a)
      | Some (inr e) => ([Call w c; Suspend; Settled 0 (rejected e)], Thrown e)
      end
  end.

(** What the scheduler decides for a task handed to [tasks.handle]: it
    gives it the worker of some index, it cancels it while pending, or
    it leaves it in the queue for ever. *)
Inductive Scheduling :=
  | dispatch (workerIndex : Z)
  | cancel (e : Error)
  | starve.

(** Modelled from the spec: [TasksManager.handle] is not under src/.
    "Returns a handle that resolves/rejects when the Task settles"; "an
    operation's own failure propagates to the Task's handle and is not
    retried by the Scheduler"; "cancellation of a Pending Task settles
    its handle as Cancelled without ever touching a Connection".  The
    callback receives the instance that the [getWorkerInstance] hook
    gives for the chosen index. *)
Definition handle {A : Type} (cb : TaskEvent -> M A) (grp : option string)
    (id : Z) (s : Scheduling) : M A :=
  perform (Tasks (tasks_handle grp (Some id))) ;;
  match s with
  | starve => never
  | cancel e => throw e
  | dispatch i =>
      perform (Dispatched i) ;;
      c ← this;
      cb {| instance := getWorkerInstance i c; taskId := id; workerIndex := i |}
  end.

(** What the environment decides during a transfer: the identity that
    [tasks.createTaskId()] returns and the scheduling of the task. *)
Record TransferEnv := {
  new_id : Z;
  scheduling : Scheduling
}.

Definition handleTransfer (fn : TaskEvent -> Op unit)
    (direction : ITransferDirection) (env : TransferEnv) : M unit :=
  perform (Tasks tasks_createTaskId) ;;
  let taskId := new_id env in
  let transfer := {| transfer_id := taskId;
                     remotePath := dir_remotePath direction;
                     localPath := dir_localPath direction |} in
  c ← this;
  assign (with_transfers (JsMap.set taskId null (transfers c))) ;;
  perform (Emit (transfer_new transfer)) ;;
  try_rethrow_finally
    (handle
       (fun e =>
          c ← this;
          assign (with_transfers
                    (JsMap.set taskId (num (workerIndex e)) (transfers c))) ;;
          lift_op (fn e))
       (Some "transfer-transfer")
       taskId
       (scheduling env))
    (c ← this;
     assign (with_transfers (JsMap.delete taskId (transfers c))) ;;
     perform (Emit (transfer_finish transfer))).

(** How the strategy answers during a transfer: the result of
    [instance.size] and of [instance.download] or [instance.upload]. *)
Record StrategyEnv := {
  size_result : option (Z + Error);
  transfer_result : option (unit + Error)
}.

(** Modelled from the spec: [getPathFromStream] of [utils/file] is not
    under src/; the spec names a transfer's "local path", which a stream
    given by the caller is taken to carry. *)
Definition getPathFromStream (s : Stream) : string :=
  match s with
  | createWriteStream p _ _ => p
  | createReadStream p => p
  | given p => p
  end.

(** The operation that [download] hands to [handleTransfer]. *)
Definition download_fn (stream : Stream) (local remote : string)
    (startAt : option Z) (senv : StrategyEnv) (e : TaskEvent) : Op unit :=
  totalBytes ← await_call (instance e) (s_size remote) (size_result senv);
  await_call (instance e)
    (s_download stream
       {| info_id := taskId e;
          info_startAt := startAt;
          info_localPath := local;
          info_remotePath := remote;
          info_totalBytes := totalBytes |})
    (transfer_result senv).

(** The operation that [upload] hands to [handleTransfer]. *)
Definition upload_fn (stream : Stream) (local remote : string)
    (senv : StrategyEnv) (e : TaskEvent) : Op unit :=
  totalBytes ← await_call (instance e) (s_size remote) (size_result senv);
  await_call (instance e)
    (s_upload stream
       {| info_id := taskId e;
          info_startAt := None;
          info_localPath := local;
          info_remotePath := remote;
          info_totalBytes := totalBytes |})
    (transfer_result senv).

(** [fs.createWriteStream] checks the option [start] when it is given:
    an integer from 0 to [Number.MAX_SAFE_INTEGER]; it throws otherwise.
    A stream given by the caller is taken as it is. *)
Definition MAX_SAFE_INTEGER : Z := 9007199254740991.

Definition valid_start (startAt : option Z) : bool :=
  match startAt with
  | None => true
  | Some n => (0 <=? n) && (n <=? MAX_SAFE_INTEGER)
  end.

Definition opens (dest : string + Stream) (startAt : option Z) : bool :=
  match dest with
  | inl _ => valid_start startAt
  | inr _ => true
  end.

(** [dest: Writable | string]: the stream of the transfer, once [fs] has
    opened it; a path opens a write stream, in append mode when [startAt]
    is truthy. *)
Definition download_stream (dest : string + Stream) (startAt : option Z)
  : Stream :=
  match dest with
  | inl p =>
      createWriteStream p
        (if startAt is Some n then (if Z.eqb n 0 then "w" else "a") else "w")
        startAt
  | inr s => s
  end.

(** [source: Readable | string]. *)
Definition upload_stream (source : string + Stream) : Stream :=
  match source with
  | inl p => createReadStream p
  | inr s => s
  end.

Definition local_path (target : string + Stream) : string :=
  match target with
  | inl p => p
  | inr s => getPathFromStream s
  end.

(** [download] is no [async] method: when [createWriteStream] throws,
    the call throws before [handleTransfer] is reached. *)
Definition download (dest : string + Stream) (remote : string)
    (startAt : option Z) (senv : StrategyEnv) (env : TransferEnv) : M unit :=
  if opens dest startAt
  then handleTransfer
         (download_fn (download_stream dest startAt) (local_path dest) remote
            startAt senv)
         {| dir_remotePath := remote; dir_localPath := local_path dest |}
         env
  else throw (RangeError "ERR_OUT_OF_RANGE").

Definition upload (source : string + Stream) (remote : string)
    (senv : StrategyEnv) (env : TransferEnv) : M unit :=
  handleTransfer
    (upload_fn (upload_stream source) (local_path source) remote senv)
    {| dir_remotePath := remote; dir_localPath := local_path source |}
    env.

(* ===================================================================== *)
(** ** Reading a run *)
(* ===================================================================== *)

Definition is_transfer_new (a : Action) : bool :=
  match a with
  | Emit (transfer_new _) => true
  | _ => false
  end.

Definition is_transfer_finish (a : Action) : bool :=
  match a with
  | Emit (transfer_finish _) => true
  | _ => false
  end.

Definition is_dispatched (a : Action) : bool :=
  match a with
  | Dispatched _ => true
  | _ => false
  end.

Definition is_abort_call (a : Action) : bool :=
  match a with
  | Io (Call _ s_abort) => true
  | _ => false
  end.

Definition is_resume_call (a : Action) : bool :=
  match a with
  | Tasks (tasks_resumeWorkers _) => true
  | _ => false
  end.

Definition is_construct (a : Action) : bool :=
  match a with
  | Construct _ => true
  | _ => false
  end.

Definition is_handle_call (a : Action) : bool :=
  match a with
  | Tasks (tasks_handle _ _) => true
  | _ => false
  end.

Definition is_settled (a : IoAction) : bool :=
  match a with
  | Settled _ _ => true
  | _ => false
  end.

(** The steps from the first one whose action satisfies [P] on. *)
Fixpoint from_first (P : Action -> bool) (l : list Obs) : list Obs :=
  match l with
  | [] => []
  | o :: l' => if P (act o) then o :: l' else from_first P l'
  end.

(** The steps strictly before the first one whose action satisfies [P]. *)
Fixpoint before_first (P : Action -> bool) (l : list Obs) : list Obs :=
  match l with
  | [] => []
  | o :: l' => if P (act o) then [] else o :: before_first P l'
  end.

(** The steps strictly after the first one whose action satisfies [P]. *)
Definition after_first (P : Action -> bool) (l : list Obs) : list Obs :=
  tail (from_first P l).

(** The life of a transfer in a run: from its announcement
    ('transfer-new', included) to its settlement notification
    ('transfer-finish', excluded). *)
Definition announced (l : list Obs) : list Obs :=
  before_first is_transfer_finish (from_first is_transfer_new l).

(** The steps of the operation: after the scheduler has run the callback
    and before the settlement notification. *)
Definition operating (l : list Obs) : list Obs :=
  before_first is_transfer_finish (after_first is_dispatched l).

(** The [transfer] object of a [handleTransfer] call, and the client's
    fields at its three stages: announced (entry [null]), dispatched to
    the worker of index [i] (entry [i]), settled (entry removed). *)
Definition transfer_of (direction : ITransferDirection) (env : TransferEnv)
  : ITransfer :=
  {| transfer_id := new_id env;
     remotePath := dir_remotePath direction;
     localPath := dir_localPath direction |}.

Definition announced_state (env : TransferEnv) (c : Client) : Client :=
  with_transfers (JsMap.set (new_id env) null (transfers c)) c.

Definition dispatched_state (i : Z) (env : TransferEnv) (c : Client) : Client :=
  with_transfers (JsMap.set (new_id env) (num i) (transfers c)) c.

Definition settled_state (env : TransferEnv) (c : Client) : Client :=
  with_transfers (JsMap.delete (new_id env) (transfers c)) c.

(** The argument with which the scheduler runs the operation. *)
Definition task_event (i : Z) (env : TransferEnv) (c : Client) : TaskEvent :=
  {| instance := getWorkerInstance i c;
     taskId := new_id env;
     workerIndex := i |}.



(** The registry value that [abortTransfer] reads for each identity. *)
Definition assigned_indexes (ids : list Z) (c : Client) : list JsNum :=
  map (fun id => JsMap.get id (transfers c)) ids.

(** The elements that [abortTransfer] pushes on [instances]: one per
    identity whose registry value is a number. *)
Definition assigned_instances (ids : list Z) (c : Client)
  : list (option Strategy) :=
  map (fun x => worker_at x c)
    (filter (fun x => not_nullish x = true) (assigned_indexes ids c)).

(** The instances on which [instances.map((r) => r.abort())] gets to call
    [abort()]: the callback throws at the first [undefined] element. *)
Fixpoint invoked (instances : list (option Strategy)) : list Strategy :=
  match instances with
  | Some w :: rest => w :: invoked rest
  | _ => []
  end.

Definition all_defined (instances : list (option Strategy)) : bool :=
  forallb (fun r => if r is Some _ then true else false) instances.

(** The config that a [connect] call works with: the one passed, else
    the saved one. *)
Definition effective_config (config : option IConfig) (c : Client)
  : option IConfig :=
  if config is Some _ then config else _config c.

(** The three [removeListener] calls of [clearWorkerEvents]. *)
Definition cleared (c : Client) (w : Strategy) : list Obs :=
  [{| act := Io (Call w (s_removeListener on_connect)); at_state := c |};
   {| act := Io (Call w (s_removeListener on_disconnect)); at_state := c |};
   {| act := Io (Call w (s_removeListener on_progress)); at_state := c |}].

(** The [disconnect()] calls of [disconnect]. *)
Definition disconnected (c : Client) : list Obs :=
  map (fun w => {| act := Io (Call w s_disconnect); at_state := c |})
    (workers c).

(** The fields after [connect] has saved the arguments that were given. *)
Definition saved (config : option IConfig) (opts : option IOptions)
    (c : Client) : Client :=
  let c1 := if config is Some _ then with_config config c else c in
  if opts is Some _ then with_connectionOptions opts c1 else c1.

(** The error of [createWorker] for a protocol without a strategy. *)
Definition strategy_not_found (p : string) : Error :=
  mkError ("Strategy for protocol " +:+ p +:+ " not found.").

(** ** Sample configurations, used where a property is run on an input *)

Definition ftp_config : IConfig :=
  {| protocol := "ftp"; host := "files.example.org" |}.

(** A protocol for which the class registers no strategy. *)
Definition http_config : IConfig :=
  {| protocol := "http"; host := "files.example.org" |}.

Definition quiet : ConnectEnv := {| disconnecting := []; connecting := [] |}.

(** A connected client with a pool of two and pooled transfers, in which
    transfer 3 runs on worker 1 and transfer 7 has been announced but not
    dispatched. *)
Definition busy_client : Client :=
  with_transfers [(3, num 1); (7, null)]
    (final (connect (Some ftp_config) None
              {| disconnecting := [];
                 connecting := [(0%nat, fulfilled); (1%nat, fulfilled)] |}
              (new_Client (Some 2) (Some true)))).

(* ===================================================================== *)
(** ** Further readings of a run *)
(* ===================================================================== *)

(** The workers that [n] rounds of the loop of [setWorkers] construct
    when the strategy of the protocol is [cls]: object number [a] is the
    first. *)
Definition built (a : nat) (cfg : IConfig) (opts : option IOptions)
    (cls : StrategyClass) (n : nat) : list Strategy :=
  map (fun k => {| oid := (a + k)%nat;
                   class := cls;
                   s_config := Some cfg;
                   s_options := opts |})
    (seq 0 n).

(** What one round of the loop does with the worker it constructs. *)
Definition constructed (w : Strategy) : list Action :=
  [Construct w;
   Io (Call w (s_on on_connect));
   Io (Call w (s_on on_disconnect));
   Io (Call w (s_on on_progress))].

(** What [clearWorkerEvents] does with a worker. *)
Definition unlistened (w : Strategy) : list Action :=
  [Io (Call w (s_removeListener on_connect));
   Io (Call w (s_removeListener on_disconnect));
   Io (Call w (s_removeListener on_progress))].

Definition is_emit (a : Action) : bool :=
  match a with
  | Emit _ => true
  | _ => false
  end.


Definition is_tasks_call (a : Action) : bool :=
  match a with
  | Tasks _ => true
  | _ => false
  end.

(** Further sample clients: one that has a config and a pool size of two
    but has not connected, and one whose pool holds a worker of an
    earlier connection. *)
Definition unconnected_client : Client :=
  with_config (Some ftp_config) (new_Client (Some 2) (Some true)).

Definition stale_client : Client :=
  with_allocated 6
    (with_workers
       [{| oid := 5; class := SftpStrategy; s_config := None;
           s_options := None |}]
       (with_config (Some ftp_config) (new_Client (Some 1) None))).

Definition is_connect_call (a : Action) : bool :=
  match a with
  | Io (Call _ s_connect) => true
  | _ => false
  end.

Definition is_disconnect_call (a : Action) : bool :=
  match a with
  | Io (Call _ s_disconnect) => true
  | _ => false
  end.

Definition is_deleteTasks_call (a : Action) : bool :=
  match a with
  | Tasks (tasks_deleteTasks _) => true
  | _ => false
  end.

(* ===================================================================== *)
(** * Properties *)
(* ===================================================================== *)

(** ** The registry *)

Lemma JsMap_get_set_eq k v m : JsMap.get k (JsMap.set k v m) = v.
Proof.
  induction m as [|[k' v'] m IH]; simpl.
  - by rewrite Z.eqb_refl.
  - destruct (Z.eqb k k') eqn:E; simpl.
    + by rewrite Z.eqb_refl.
    + by rewrite E.
Qed.

Lemma JsMap_has_set_eq k v m : JsMap.has k (JsMap.set k v m) = true.
Proof.
  induction m as [|[k' v'] m IH]; simpl.
  - by rewrite Z.eqb_refl.
  - destruct (Z.eqb k k') eqn:E; simpl.
    + by rewrite Z.eqb_refl.
    + by rewrite E.
Qed.

Lemma JsMap_has_delete_eq k m : JsMap.has k (JsMap.delete k m) = false.
Proof.
  induction m as [|[k' v'] m IH]; simpl; [done|].
  destruct (Z.eqb k k') eqn:E; simpl; [done|]. by rewrite E.
Qed.

Lemma JsMap_get_set_ne k k' v m :
  k <> k' -> JsMap.get k (JsMap.set k' v m) = JsMap.get k m.
Proof.
  intros Hne. induction m as [|[k2 v2] m IH]; simpl.
  - by destruct (Z.eqb_spec k k').
  - destruct (Z.eqb_spec k' k2) as [->|]; simpl.
    + by destruct (Z.eqb_spec k k2).
    + by rewrite IH.
Qed.

Lemma JsMap_get_delete_ne k k' m :
  k <> k' -> JsMap.get k (JsMap.delete k' m) = JsMap.get k m.
Proof.
  intros Hne. induction m as [|[k2 v2] m IH]; simpl; [done|].
  destruct (Z.eqb_spec k' k2) as [->|]; simpl.
  - rewrite IH. by destruct (Z.eqb_spec k k2).
  - by rewrite IH.
Qed.

Lemma JsMap_has_set_ne k k' v m :
  k <> k' -> JsMap.has k (JsMap.set k' v m) = JsMap.has k m.
Proof.
  intros Hne. induction m as [|[k2 v2] m IH]; simpl.
  - by destruct (Z.eqb_spec k k').
  - destruct (Z.eqb_spec k' k2) as [->|]; simpl.
    + by destruct (Z.eqb_spec k k2).
    + by rewrite IH.
Qed.

Lemma JsMap_has_delete_ne k k' m :
  k <> k' -> JsMap.has k (JsMap.delete k' m) = JsMap.has k m.
Proof.
  intros Hne. induction m as [|[k2 v2] m IH]; simpl; [done|].
  destruct (Z.eqb_spec k' k2) as [->|]; simpl.
  - rewrite IH. by destruct (Z.eqb_spec k k2).
  - by rewrite IH.
Qed.

Lemma JsMap_keys_has k m : k ∈ JsMap.keys m <-> JsMap.has k m = true.
Proof.
  induction m as [|[k' v'] m IH]; simpl.
  - split; [by intros ?%elem_of_nil | done].
  - rewrite elem_of_cons, IH. simpl.
    destruct (Z.eqb_spec k k') as [->|Hne]; [tauto|].
    split; [intros [?|?]; [contradiction|done] | by right].
Qed.

(** ** Runs of the building blocks *)

Lemma prefixed_nil {A : Type} (r : Run A) : prefixed [] r = r.
Proof. by destruct r as [[? ?] ?]. Qed.

Lemma completion_prefixed {A : Type} (t : list Obs) (r : Run A) :
  completion (prefixed t r) = completion r.
Proof. reflexivity. Qed.

Lemma final_prefixed {A : Type} (t : list Obs) (r : Run A) :
  final (prefixed t r) = final r.
Proof. reflexivity. Qed.

Lemma actions_prefixed {A : Type} (t : list Obs) (r : Run A) :
  actions (prefixed t r) = map act t ++ actions r.
Proof. unfold actions, prefixed, steps. simpl. apply map_app. Qed.

Lemma bind_this {B : Type} (k : Client -> M B) (c : Client) :
  (this ≫= k) c = k c c.
Proof. unfold mbind, M_bind. simpl. apply prefixed_nil. Qed.

Lemma bind_ret {A B : Type} (a : A) (k : A -> M B) (c : Client) :
  (mret a ≫= k) c = k a c.
Proof. unfold mbind, M_bind. simpl. apply prefixed_nil. Qed.

Lemma bind_perform {B : Type} (a : Action) (k : unit -> M B) (c : Client) :
  (perform a ≫= k) c = prefixed [{| act := a; at_state := c |}] (k tt c).
Proof. reflexivity. Qed.

Lemma bind_assign {B : Type} (f : Client -> Client) (k : unit -> M B)
    (c : Client) :
  (assign f ≫= k) c = k tt (f c).
Proof. unfold mbind, M_bind. simpl. apply prefixed_nil. Qed.

Lemma bind_returned {A B : Type} (m : M A) (k : A -> M B) (c : Client) (a : A) :
  completion (m c) = Returned a ->
  (m ≫= k) c = prefixed (steps (m c)) (k a (final (m c))).
Proof. intros H. unfold mbind, M_bind. by rewrite H. Qed.

Lemma bind_thrown {A B : Type} (m : M A) (k : A -> M B) (c : Client) (e : Error) :
  completion (m c) = Thrown e ->
  (m ≫= k) c = (Thrown e, final (m c), steps (m c)).
Proof. intros H. unfold mbind, M_bind. by rewrite H. Qed.

Lemma forEach_perform {T : Type} (f : T -> Action) (l : list T) (c : Client) :
  forEach (fun r => perform (f r)) l c =
    (Returned tt, c, map (fun r => {| act := f r; at_state := c |}) l).
Proof.
  induction l as [|x l IH]; simpl; [done|].
  rewrite bind_perform, IH. reflexivity.
Qed.

Lemma settle_all_settled (waiting : list nat) (schedule : list (nat * Outcome)) :
  Forall (fun a => is_settled a = true) (settle_all waiting schedule).1.
Proof.
  revert waiting. induction schedule as [|[i o] rest IH]; intros waiting.
  - destruct waiting; simpl; constructor.
  - destruct waiting as [|j waiting]; [simpl; constructor|].
    cbn [settle_all]. case_bool_decide.
    + destruct o; simpl.
      * constructor; [done | apply IH].
      * by repeat constructor.
    + apply IH.
Qed.

(** When [Promise.all] fulfils, every awaited promise has settled, and
    fulfilled, before. *)
Lemma settle_all_returned (waiting : list nat) (schedule : list (nat * Outcome)) :
  (settle_all waiting schedule).2 = Returned tt ->
  Forall (fun i => In (Settled i fulfilled) (settle_all waiting schedule).1)
    waiting.
Proof.
  revert waiting. induction schedule as [|[i o] rest IH]; intros waiting.
  - destruct waiting; simpl; [constructor | discriminate].
  - destruct waiting as [|j waiting]; [constructor|].
    cbn [settle_all]. case_bool_decide as Hi.
    + destruct o; simpl; [|discriminate].
      intros Hret. specialize (IH _ Hret).
      rewrite Forall_forall in IH. apply Forall_forall.
      intros k Hk. destruct (decide (k = i)) as [->|Hne]; [by left|].
      right. apply IH. apply list_elem_of_filter. by split.
    + apply IH.
Qed.

(** A rejection or a promise that never settles keeps [Promise.all] from
    fulfilling: it fulfils only by settling everything. *)
Lemma settle_all_nil (schedule : list (nat * Outcome)) :
  settle_all [] schedule = ([], Returned tt).
Proof. by destruct schedule. Qed.

Lemma await_all_run (n : nat) (schedule : list (nat * Outcome)) (c : Client) :
  await_all n schedule c =
    ((settle_all (seq 0 n) schedule).2, c,
     map (fun a => {| act := Io a; at_state := c |})
       (Suspend :: (settle_all (seq 0 n) schedule).1)).
Proof. reflexivity. Qed.

Lemma await_all_run_bind {B : Type} (n : nat) (schedule : list (nat * Outcome))
    (k : unit -> M B) (c : Client) :
  (await_all n schedule ≫= k) c =
    let settling := settle_all (seq 0 n) schedule in
    let waited :=
      map (fun a => {| act := Io a; at_state := c |}) (Suspend :: settling.1) in
    match settling.2 with
    | Returned _ => prefixed waited (k tt c)
    | Thrown e => (Thrown e, c, waited)
    | Pending => (Pending, c, waited)
    end.
Proof.
  unfold mbind, M_bind. rewrite await_all_run.
  unfold completion, final, steps. simpl.
  by destruct (settle_all (seq 0 n) schedule).2 as [[]| |].
Qed.

Lemma filter_io (P : Action -> bool) (tr : list IoAction) (s : Client) :
  (forall a : IoAction, P (Io a) = false) ->
  List.filter P
    (map act (map (fun a => {| act := Io a; at_state := s |}) tr)) = [].
Proof.
  intros HP. induction tr as [|a tr IH]; simpl; [done|]. by rewrite HP.
Qed.

Lemma filter_io_plain (P : Action -> bool) (tr : list IoAction) :
  (forall a : IoAction, P (Io a) = false) ->
  List.filter P (map Io tr) = [].
Proof.
  intros HP. induction tr as [|a tr IH]; simpl; [done|]. by rewrite HP.
Qed.

Lemma filter_io_map {T : Type} (P : Action -> bool) (f : T -> IoAction)
    (l : list T) :
  (forall a : IoAction, P (Io a) = false) ->
  List.filter P (map (fun x => Io (f x)) l) = [].
Proof.
  intros HP. induction l as [|x l IH]; simpl; [done|]. by rewrite HP.
Qed.

Lemma before_first_io (P : Action -> bool) (tr : list IoAction) (s : Client)
    (rest : list Obs) :
  (forall a : IoAction, P (Io a) = false) ->
  before_first P (map (fun a => {| act := Io a; at_state := s |}) tr ++ rest) =
  map (fun a => {| act := Io a; at_state := s |}) tr ++ before_first P rest.
Proof.
  intros HP. induction tr as [|a tr IH]; simpl; [done|].
  by rewrite HP, IH.
Qed.

Lemma Forall_lifted (Q : Client -> Prop) (tr : list IoAction) (s : Client) :
  Q s ->
  Forall (fun o => Q (at_state o))
    (map (fun a => {| act := Io a; at_state := s |}) tr).
Proof.
  intros HQ. apply Forall_forall. intros o Ho.
  apply list_elem_of_fmap in Ho as (a & -> & _). exact HQ.
Qed.

(** ** Building the pool *)

Lemma repeat_length {T : Type} (x : T) (n : Z) :
  length (repeat x n) = Z.to_nat n.
Proof. unfold repeat. apply length_replicate. Qed.

Lemma repeat_lookup {T : Type} (x : T) (n : Z) (i : nat) :
  (i < Z.to_nat n)%nat -> repeat x n !! i = Some x.
Proof. intros Hi. unfold repeat. by apply lookup_replicate_2. Qed.

Lemma filter_replicate_Transfer (n : nat) :
  filter (fun g => g = Transfer) (replicate n Transfer) = replicate n Transfer.
Proof.
  induction n as [|n IH]; simpl; [done|].
  rewrite filter_cons_True by done. by rewrite IH.
Qed.

Lemma setWorkerGroups_run (c : Client) :
  setWorkerGroups c =
    (Returned tt, c,
     [{| act := Tasks (tasks_setWorkers
                         (groups (pool (options c)) (transferPool (options c))));
         at_state := c |}]).
Proof. reflexivity. Qed.

Lemma forEach_clearWorkerEvents_run (ws : list Strategy) (c : Client) :
  forEach clearWorkerEvents ws c =
    (Returned tt, c, concat (map (cleared c) ws)).
Proof.
  induction ws as [|w ws IH]; simpl; [done|].
  rewrite (bind_returned _ _ _ tt) by done.
  change (final (clearWorkerEvents w c)) with c. rewrite IH. reflexivity.
Qed.

Lemma filter_construct_cleared (c : Client) (ws : list Strategy) :
  List.filter is_construct (map act (concat (map (cleared c) ws))) = [].
Proof. induction ws as [|w ws IH]; simpl; done. Qed.

Lemma handleWorkerEvents_run (w : Strategy) (c : Client) :
  handleWorkerEvents w c =
    (Returned tt, c,
     [{| act := Io (Call w (s_on on_connect)); at_state := c |};
      {| act := Io (Call w (s_on on_disconnect)); at_state := c |};
      {| act := Io (Call w (s_on on_progress)); at_state := c |}]).
Proof. reflexivity. Qed.

(** An own property of the table hides what the table inherits. *)
Lemma strategy_of_registered (c : Client) (p : string) (cls : StrategyClass) :
  strategies c !! p = Some cls -> strategy_of c p = Some (registered cls).
Proof. intros Hs. unfold strategy_of. by rewrite Hs. Qed.

(** The lookup is [undefined] exactly for a name that is neither an own
    property nor inherited. *)
Lemma strategy_of_undefined (c : Client) (p : string) :
  strategy_of c p = None <->
  strategies c !! p = None /\ p ∉ object_prototype_names.
Proof.
  unfold strategy_of. destruct (strategies c !! p) as [s|].
  - split; [done | by intros [? _]].
  - case_bool_decide as Hk.
    + split; [done|]. intros [_ Hn]. exfalso. apply Hn. subst p.
      apply elem_of_cons. by left.
    + case_bool_decide as Hin; split; try done.
      by intros [_ Hn].
Qed.

Lemma createWorker_found (c : Client) (cfg : IConfig) (cls : StrategyClass) :
  _config c = Some cfg ->
  strategies c !! protocol cfg = Some cls ->
  let w := {| oid := allocated c; class := cls; s_config := Some cfg;
              s_options := _connectionOptions c |} in
  createWorker c =
    (Returned (instance_of w), with_allocated (S (allocated c)) c,
     [{| act := Construct w; at_state := with_allocated (S (allocated c)) c |}]).
Proof.
  intros Hc Hs. cbv zeta. unfold createWorker.
  rewrite bind_this, Hc, (strategy_of_registered _ _ _ Hs).
  rewrite bind_assign, bind_perform. reflexivity.
Qed.

(** How [createWorker] ends depends on the saved config and options, on
    the member of the table for the protocol, and on nothing else of the
    table. *)
Lemma createWorker_completion_ext (c1 c2 : Client) (cfg : IConfig) :
  _config c1 = Some cfg ->
  _config c2 = Some cfg ->
  strategies c1 !! protocol cfg = strategies c2 !! protocol cfg ->
  allocated c1 = allocated c2 ->
  _connectionOptions c1 = _connectionOptions c2 ->
  completion (createWorker c1) = completion (createWorker c2).
Proof.
  intros H1 H2 Hs Ha Ho.
  destruct (strategies c2 !! protocol cfg) as [cls|] eqn:E2.
  - pose proof (createWorker_found c1 cfg cls H1 Hs) as R1.
    pose proof (createWorker_found c2 cfg cls H2 E2) as R2.
    cbv zeta in R1, R2. by rewrite R1, R2, Ha, Ho.
  - unfold createWorker. rewrite !bind_this, H1, H2.
    unfold strategy_of. rewrite Hs, E2.
    case_bool_decide; [done|]. by case_bool_decide.
Qed.

Lemma createWorker_missing (c : Client) (cfg : IConfig) :
  _config c = Some cfg ->
  strategy_of c (protocol cfg) = None ->
  createWorker c = (Thrown (strategy_not_found (protocol cfg)), c, []).
Proof.
  intros Hc Hs. unfold createWorker. rewrite bind_this, Hc, Hs. reflexivity.
Qed.

Lemma setWorkers_body_found (c : Client) (cfg : IConfig) (cls : StrategyClass) :
  _config c = Some cfg ->
  strategies c !! protocol cfg = Some cls ->
  completion (setWorkers_body c) = Returned tt
  /\ exists w : Strategy,
       final (setWorkers_body c) =
         with_workers (workers c ++ [w]) (with_allocated (S (allocated c)) c).
Proof.
  intros Hc Hs. unfold setWorkers_body.
  pose proof (createWorker_found c cfg cls Hc Hs) as Hw. cbv zeta in Hw.
  rewrite (bind_returned _ _ _ _ ltac:(by rewrite Hw)).
  rewrite Hw. cbn [steps final fst snd].
  rewrite (bind_returned _ _ _ tt) by reflexivity.
  rewrite handleWorkerEvents_run. cbn [steps final fst snd].
  rewrite bind_this.
  split; [reflexivity|]. eexists. reflexivity.
Qed.

Lemma setWorkers_body_missing (c : Client) (cfg : IConfig) :
  _config c = Some cfg ->
  strategy_of c (protocol cfg) = None ->
  setWorkers_body c = (Thrown (strategy_not_found (protocol cfg)), c, []).
Proof.
  intros Hc Hs. unfold setWorkers_body.
  rewrite (bind_thrown _ _ _ (strategy_not_found (protocol cfg)))
    by (by rewrite (createWorker_missing _ cfg)).
  by rewrite (createWorker_missing _ cfg).
Qed.

(** The loop of [setWorkers], run [n] times with a strategy registered
    for the protocol, adds [n] workers and changes nothing else that the
    pool is built from. *)
Lemma times_setWorkers_body (n : nat) (c : Client) (cfg : IConfig)
    (cls : StrategyClass) :
  _config c = Some cfg ->
  strategies c !! protocol cfg = Some cls ->
  completion (times n setWorkers_body c) = Returned tt
  /\ length (workers (final (times n setWorkers_body c))) =
     (length (workers c) + n)%nat
  /\ options (final (times n setWorkers_body c)) = options c
  /\ transfers (final (times n setWorkers_body c)) = transfers c.
Proof.
  revert c. induction n as [|n IH]; intros c Hc Hs.
  - simpl. unfold completion, final. simpl. repeat split; lia.
  - cbn [times].
    destruct (setWorkers_body_found c cfg cls Hc Hs) as (Hret & w & Hfin).
    rewrite (bind_returned _ _ _ tt Hret), Hfin.
    rewrite completion_prefixed, final_prefixed.
    destruct (IH (with_workers (workers c ++ [w])
                    (with_allocated (S (allocated c)) c)) Hc Hs)
      as (H1 & H2 & H3 & H4).
    rewrite H1, H2, H3, H4. cbn [workers with_workers].
    rewrite length_app. simpl. repeat split; lia.
Qed.

(** With a strategy registered for the protocol, [setWorkers] builds a
    pool of [pool] workers and hands the scheduler the labels of
    [setWorkerGroups] as its last step. *)
Lemma setWorkers_builds_pool (c : Client) (cfg : IConfig) (cls : StrategyClass) :
  _config c = Some cfg ->
  strategies c !! protocol cfg = Some cls ->
  completion (setWorkers c) = Returned tt
  /\ length (workers (final (setWorkers c))) = Z.to_nat (pool (options c))
  /\ last (actions (setWorkers c)) =
     Some (Tasks (tasks_setWorkers
                    (groups (pool (options c)) (transferPool (options c)))))
  /\ transfers (final (setWorkers c)) = transfers c.
Proof.
  intros Hc Hs. unfold setWorkers. rewrite bind_this.
  rewrite (bind_returned _ _ _ tt) by (by rewrite forEach_clearWorkerEvents_run).
  rewrite forEach_clearWorkerEvents_run. cbn [steps final fst snd].
  rewrite bind_assign.
  destruct (times_setWorkers_body (Z.to_nat (pool (options c)))
              (with_workers [] c) cfg cls Hc Hs) as (H1 & H2 & H3 & H4).
  rewrite (bind_returned _ _ _ tt H1), setWorkerGroups_run, H3.
  rewrite completion_prefixed, final_prefixed, !actions_prefixed.
  cbn [options with_workers].
  split; [done|]. split; [exact H2|]. split; [|exact H4].
  change (actions (Returned tt, ?s, [?o])) with [act o]. cbn [act].
  rewrite !app_assoc. apply last_snoc.
Qed.

(** Without a strategy for the protocol, a pool of at least one worker
    fails at its first [createWorker]. *)
Lemma setWorkers_missing (c : Client) (cfg : IConfig) :
  _config c = Some cfg ->
  strategy_of c (protocol cfg) = None ->
  1 <= pool (options c) ->
  setWorkers c =
    (Thrown (strategy_not_found (protocol cfg)), with_workers [] c,
     concat (map (cleared c) (workers c))).
Proof.
  intros Hc Hs Hp. unfold setWorkers. rewrite bind_this.
  rewrite (bind_returned _ _ _ tt) by (by rewrite forEach_clearWorkerEvents_run).
  rewrite forEach_clearWorkerEvents_run. cbn [steps final fst snd].
  rewrite bind_assign.
  destruct (Z.to_nat (pool (options c))) as [|n] eqn:En; [lia|].
  cbn [times].
  assert (setWorkers_body (with_workers [] c) =
          (Thrown (strategy_not_found (protocol cfg)), with_workers [] c, []))
    as Hbody by (by apply setWorkers_body_missing).
  rewrite (bind_thrown _ _ _ (strategy_not_found (protocol cfg)));
    [|rewrite (bind_thrown _ _ _ (strategy_not_found (protocol cfg)));
      by rewrite Hbody].
  rewrite (bind_thrown _ _ _ (strategy_not_found (protocol cfg)))
    by (by rewrite Hbody).
  rewrite Hbody. cbv [prefixed completion final steps fst snd].
  by rewrite app_nil_r.
Qed.

(** With a pool size below 1 the loop does not run. *)
Lemma setWorkers_small (c : Client) :
  pool (options c) < 1 ->
  setWorkers c =
    (Returned tt, with_workers [] c,
     concat (map (cleared c) (workers c))
     ++ [{| act := Tasks (tasks_setWorkers
                            (groups (pool (options c))
                               (transferPool (options c))));
            at_state := with_workers [] c |}]).
Proof.
  intros Hp. unfold setWorkers. rewrite bind_this.
  rewrite (bind_returned _ _ _ tt) by (by rewrite forEach_clearWorkerEvents_run).
  rewrite forEach_clearWorkerEvents_run. cbn [steps final fst snd].
  rewrite bind_assign.
  replace (Z.to_nat (pool (options c))) with 0%nat by lia.
  cbn [times]. rewrite bind_ret, setWorkerGroups_run. reflexivity.
Qed.

(** ** The grouping policy *)

(** C1. For a pool size [p >= 1], [setWorkerGroups] hands the scheduler
    exactly [p] labels, one per worker in pool order: every one is 'all'
    when the transfer-pool flag is falsy or [p = 1]; otherwise the first
    is 'misc' and each of the remaining [p - 1] is 'transfer'.  When the
    protocol has a strategy, [setWorkers] has built exactly as many
    workers as there are labels and hands these labels over as its last
    step. *)
Theorem setWorkerGroups_labels (c : Client) :
  1 <= pool (options c) ->
  let p := pool (options c) in
  let flag := truthy_flag (transferPool (options c)) in
  exists gs : list IClientWorkerGroup,
    actions (setWorkerGroups c) = [Tasks (tasks_setWorkers gs)]
    /\ completion (setWorkerGroups c) = Returned tt
    /\ length gs = Z.to_nat p
    /\ (flag = false \/ p = 1 ->
        forall i : nat, (i < Z.to_nat p)%nat -> gs !! i = Some All)
    /\ (flag = true /\ p <> 1 ->
        gs !! 0%nat = Some Misc
        /\ (forall i : nat, (1 <= i < Z.to_nat p)%nat -> gs !! i = Some Transfer)
        /\ length (filter (fun g => g = Transfer) gs) = Z.to_nat (p - 1))
    /\ (forall (cfg : IConfig) (cls : StrategyClass),
          _config c = Some cfg ->
          strategies c !! protocol cfg = Some cls ->
          completion (setWorkers c) = Returned tt
          /\ length (workers (final (setWorkers c))) = length gs
          /\ last (actions (setWorkers c)) = Some (Tasks (tasks_setWorkers gs))).
Proof.
  intros Hp p flag.
  exists (groups p (transferPool (options c))).
  rewrite setWorkerGroups_run. unfold actions, completion. cbn [steps fst snd map act].
  split; [done|]. split; [done|].
  assert (length (groups p (transferPool (options c))) = Z.to_nat p) as Hlen.
  { unfold groups. destruct (_ || _); simpl; rewrite repeat_length; lia. }
  split; [exact Hlen|].
  split; [|split].
  - intros Hall i Hi. unfold groups. fold flag.
    assert (negb flag || (p =? 1) = true) as ->.
    { destruct Hall as [->| ->]; [done|]. by rewrite orb_true_r. }
    by apply repeat_lookup.
  - intros [Hflag Hne]. unfold groups. fold flag.
    rewrite Hflag. destruct (Z.eqb_spec p 1) as [?|_]; [contradiction|].
    simpl. split; [done|]. split.
    + intros [|i] Hi; [lia|]. simpl. apply repeat_lookup. lia.
    + unfold repeat. rewrite filter_cons_False by discriminate.
      rewrite filter_replicate_Transfer. apply length_replicate.
  - intros cfg cls Hc Hs.
    destruct (setWorkers_builds_pool c cfg cls Hc Hs) as (H1 & H2 & H3 & _).
    rewrite Hlen. by repeat split.
Qed.

Lemma setWorkerGroups_labels_witness :
  1 <= pool (options (new_Client (Some 3) (Some true)))
  /\ exists gs : list IClientWorkerGroup,
       actions (setWorkerGroups (new_Client (Some 3) (Some true))) =
         [Tasks (tasks_setWorkers gs)]
       /\ gs !! 0%nat = Some Misc
       /\ gs !! 1%nat = Some Transfer
       /\ gs !! 2%nat = Some Transfer
       /\ length gs = 3%nat.
Proof.
  assert (1 <= pool (options (new_Client (Some 3) (Some true)))) as Hp
    by (simpl; lia).
  split; [exact Hp|].
  destruct (setWorkerGroups_labels (new_Client (Some 3) (Some true)) Hp)
    as (gs & Hact & _ & Hlen & _ & Hsplit & _).
  destruct Hsplit as (H0 & Hrest & _).
  { split; [reflexivity | simpl; lia]. }
  exists gs. split; [exact Hact|]. split; [exact H0|].
  split; [apply Hrest; simpl; lia|].
  split; [apply Hrest; simpl; lia|].
  exact Hlen.
Defined.

(** ** The eligibility filter *)

(** The filter on raw strings: for any label of the worker and any
    requested group that is not the empty string. *)
Lemma workerFilter_strings (w : string) (g : option string) :
  g <> Some "" ->
  workerFilter {| group := w |} g = true <->
  w = "all" \/ (g = None /\ w = "misc") \/ g = Some w.
Proof.
  intros Hg. unfold workerFilter, truthy_str, strict_eq_str. simpl.
  rewrite !orb_true_iff, andb_true_iff.
  destruct g as [s|].
  - assert (String.eqb s "" = false) as ->
      by (apply String.eqb_neq; congruence).
    simpl. rewrite !String.eqb_eq. split.
    + intros [[?|[? _]]|?]; [by left | discriminate | right; right; congruence].
    + intros [?|[[? _]|?]]; [by left; left | discriminate | right; congruence].
  - simpl. rewrite !String.eqb_eq. split.
    + intros [[?|[_ ?]]|?]; [by left | by right; left | discriminate].
    + intros [?|[[_ ?]|?]]; [by left; left | by left; right | discriminate].
Qed.

(** C2. For every worker label and every requested group (absent, or one
    of the three labels), [workerFilter] accepts the worker exactly when
    its label is 'all', or the requested group is absent and the label is
    'misc', or the label is the requested group; so a requested
    'transfer' (or 'misc') matches only the label 'transfer' (or 'misc')
    and the label 'all'. *)
Theorem workerFilter_eligible (w : IClientWorkerGroup)
    (g : option IClientWorkerGroup) :
  (workerFilter {| group := label w |} (label <$> g) = true <->
     w = All \/ (g = None /\ w = Misc) \/ g = Some w)
  /\ (workerFilter {| group := label w |} (Some (label Transfer)) = true <->
       w = Transfer \/ w = All)
  /\ (workerFilter {| group := label w |} (Some (label Misc)) = true <->
       w = Misc \/ w = All)
  /\ (workerFilter {| group := label w |} None = true <->
       w = All \/ w = Misc).
Proof.
  repeat split; destruct w; try destruct g as [[]|]; vm_compute;
    intuition (discriminate || congruence).
Qed.

(** The group that [handleTransfer] requests from the scheduler is the
    string 'transfer-transfer', which is none of the three labels: the
    filter accepts for it only a worker labelled 'all'. *)
Lemma workerFilter_requested_by_handleTransfer (w : IClientWorkerGroup) :
  workerFilter {| group := label w |} (Some "transfer-transfer") = true <->
  w = All.
Proof. destruct w; vm_compute; intuition discriminate. Qed.

(** ** [connect] *)

Lemma disconnect_run (schedule : list (nat * Outcome)) (c : Client) :
  disconnect schedule c =
    ((settle_all (seq 0 (length (workers c))) schedule).2, c,
     disconnected c
     ++ map (fun a => {| act := Io a; at_state := c |})
          (Suspend :: (settle_all (seq 0 (length (workers c))) schedule).1)).
Proof.
  unfold disconnect. rewrite bind_this.
  rewrite (bind_returned _ _ _ tt) by (by rewrite forEach_perform).
  rewrite forEach_perform, await_all_run. reflexivity.
Qed.

Lemma saved_config (config : option IConfig) (opts : option IOptions)
    (c : Client) :
  _config (saved config opts c) = effective_config config c.
Proof. by destruct config, opts. Qed.

Lemma saved_fields (config : option IConfig) (opts : option IOptions)
    (c : Client) :
  strategies (saved config opts c) = strategies c
  /\ options (saved config opts c) = options c
  /\ workers (saved config opts c) = workers c
  /\ transfers (saved config opts c) = transfers c
  /\ _connectionOptions (saved config opts c) =
     (if opts is Some _ then opts else _connectionOptions c).
Proof. by destruct config, opts. Qed.

(** [connect] up to [setWorkers], when a config is at hand and the
    [disconnect()] promises of the previous workers all fulfil. *)
Lemma connect_run (config : option IConfig) (opts : option IOptions)
    (env : ConnectEnv) (c : Client) (cfg : IConfig) :
  effective_config config c = Some cfg ->
  (settle_all (seq 0 (length (workers c))) (disconnecting env)).2 = Returned tt ->
  connect config opts env c =
    prefixed (steps (disconnect (disconnecting env) c))
      ((setWorkers ;;
        c' ← this;
        forEach (fun r => perform (Call r s_connect)) (workers c') ;;
        await_all (length (workers c')) (connecting env))
         (saved config opts c)).
Proof.
  intros Hcfg Hdis. unfold connect. rewrite bind_this.
  assert (negb (bool_decide (is_Some (_config c)))
          && negb (bool_decide (is_Some config)) = false) as ->.
  { unfold effective_config in Hcfg.
    destruct config; [by rewrite andb_false_r|].
    rewrite Hcfg. reflexivity. }
  rewrite (bind_returned _ _ _ tt) by (by rewrite disconnect_run).
  f_equal. rewrite disconnect_run. cbn [final fst snd].
  unfold saved. destruct config, opts;
    repeat (rewrite bind_assign || rewrite bind_ret); reflexivity.
Qed.

(** C10. [connect] called without a config while none is saved ends with
    the error 'Config must be provided!' before it makes any step: no
    suspension, no call on a worker, nothing constructed, and every field
    of the client (workers, saved config, connection options) is as it
    was. *)
Theorem connect_without_config (c : Client) (opts : option IOptions)
    (env : ConnectEnv) :
  _config c = None ->
  connect None opts env c =
    (Thrown (mkError "Config must be provided!"), c, []).
Proof.
  intros Hc. unfold connect, mbind, M_bind, this. simpl.
  rewrite Hc. reflexivity.
Qed.

Lemma connect_without_config_witness :
  _config (new_Client (Some 2) (Some true)) = None
  /\ connect None None {| disconnecting := []; connecting := [] |}
       (new_Client (Some 2) (Some true)) =
     (Thrown (mkError "Config must be provided!"),
      new_Client (Some 2) (Some true), []).
Proof.
  split; [reflexivity|].
  apply (connect_without_config (new_Client (Some 2) (Some true))).
  reflexivity.
Defined.

(** C7 (as the code has it). For every integer pool size below 1,
    [setWorkers] constructs no strategy and leaves the worker list empty.
    With pool size 0 and the transfer-pool flag falsy, [setWorkers]
    raises no error: it completes normally, handing the scheduler an
    empty list of labels. *)
Theorem setWorkers_small_pool (c : Client) :
  pool (options c) < 1 ->
  workers (final (setWorkers c)) = []
  /\ List.filter is_construct (actions (setWorkers c)) = []
  /\ (pool (options c) = 0 ->
      truthy_flag (transferPool (options c)) = false ->
      completion (setWorkers c) = Returned tt
      /\ last (actions (setWorkers c)) = Some (Tasks (tasks_setWorkers []))).
Proof.
  intros Hp. rewrite (setWorkers_small c Hp).
  unfold actions, steps, final, completion. cbn [fst snd].
  split; [done|]. split.
  - rewrite map_app, List.filter_app, filter_construct_cleared. done.
  - intros H0 Hflag. split; [done|].
    rewrite map_app. cbn [map act]. rewrite last_snoc.
    unfold groups. rewrite Hflag, H0. reflexivity.
Qed.

Lemma setWorkers_small_pool_witness :
  pool (options (with_config (Some ftp_config) (new_Client (Some 0) None))) < 1
  /\ workers (final (setWorkers
                       (with_config (Some ftp_config) (new_Client (Some 0) None))))
     = []
  /\ completion (setWorkers
                   (with_config (Some ftp_config) (new_Client (Some 0) None)))
     = Returned tt.
Proof.
  assert (pool (options (with_config (Some ftp_config)
                           (new_Client (Some 0) None))) < 1) as Hp
    by (simpl; lia).
  split; [exact Hp|].
  destruct (setWorkers_small_pool _ Hp) as (Hw & _ & Hdone).
  split; [exact Hw|]. apply Hdone; reflexivity.
Defined.

(** C7, as stated, fails: with pool size 0 (and the strategy of the
    protocol registered) [setWorkers] returns normally and leaves an
    empty pool, and so does a whole [connect]. *)
Lemma setWorkers_empty_pool_no_error :
  pool (options (new_Client (Some 0) None)) < 1
  /\ completion (setWorkers
                   (with_config (Some ftp_config) (new_Client (Some 0) None)))
     = Returned tt
  /\ workers (final (setWorkers
                       (with_config (Some ftp_config) (new_Client (Some 0) None))))
     = []
  /\ completion (connect (Some ftp_config) None quiet (new_Client (Some 0) None))
     = Returned tt
  /\ workers (final (connect (Some ftp_config) None quiet
                       (new_Client (Some 0) None))) = []
  /\ ~ (forall c : Client,
          pool (options c) < 1 ->
          exists e : Error, completion (setWorkers c) = Thrown e).
Proof.
  split; [simpl; lia|].
  split; [reflexivity|]. split; [reflexivity|].
  split; [vm_compute; reflexivity|]. split; [vm_compute; reflexivity|].
  intros H.
  destruct (H (with_config (Some ftp_config) (new_Client (Some 0) None)))
    as [e He]; [simpl; lia|].
  discriminate He.
Qed.

(** C8 (as the code has it). When the lookup of the protocol of the
    config in use in the strategies table is [undefined] (the protocol
    has no registered strategy and is not the name of a member that the
    table inherits from [Object.prototype]), the pool size is at least 1
    and the [disconnect()] promises of the previous workers fulfil,
    [connect] fails with 'Strategy for protocol <p> not found.'.  The
    failure arises in [setWorkers], after the suspension of
    [await this.disconnect()]: by then the arguments have been saved, the
    listeners of the previous workers removed and the worker list
    emptied; no strategy has been constructed. *)
Theorem connect_strategy_not_found (config : option IConfig)
    (opts : option IOptions) (env : ConnectEnv) (c : Client) (cfg : IConfig) :
  effective_config config c = Some cfg ->
  strategies c !! protocol cfg = None ->
  protocol cfg ∉ object_prototype_names ->
  1 <= pool (options c) ->
  (settle_all (seq 0 (length (workers c))) (disconnecting env)).2 = Returned tt ->
  completion (connect config opts env c) =
    Thrown (strategy_not_found (protocol cfg))
  /\ (exists settles : list IoAction,
        Forall (fun a => is_settled a = true) settles
        /\ actions (connect config opts env c) =
             map act (disconnected c)
             ++ Io Suspend :: map Io settles
             ++ map act (concat (map (cleared (saved config opts c)) (workers c))))
  /\ List.filter is_construct (actions (connect config opts env c)) = []
  /\ final (connect config opts env c) = with_workers [] (saved config opts c).
Proof.
  intros Hcfg Hs Hname Hp Hdis.
  rewrite (connect_run _ _ _ _ cfg Hcfg Hdis).
  destruct (saved_fields config opts c) as (Hst & Hop & Hw & _ & _).
  assert (setWorkers (saved config opts c) =
          (Thrown (strategy_not_found (protocol cfg)),
           with_workers [] (saved config opts c),
           concat (map (cleared (saved config opts c)) (workers c)))) as Hset.
  { rewrite <- Hw. apply setWorkers_missing.
    - by rewrite saved_config.
    - apply strategy_of_undefined. by rewrite Hst.
    - by rewrite Hop. }
  rewrite (bind_thrown _ _ _ (strategy_not_found (protocol cfg)))
    by (by rewrite Hset).
  rewrite Hset, disconnect_run.
  cbv [actions steps final completion prefixed]. cbn [fst snd].
  split; [done|].
  assert (map act
            ((disconnected c
              ++ map (fun a => {| act := Io a; at_state := c |})
                   (Suspend :: (settle_all (seq 0 (length (workers c)))
                                  (disconnecting env)).1))
             ++ concat (map (cleared (saved config opts c)) (workers c)))
          = map act (disconnected c)
            ++ Io Suspend
               :: map Io (settle_all (seq 0 (length (workers c)))
                            (disconnecting env)).1
            ++ map act (concat (map (cleared (saved config opts c)) (workers c))))
    as Hact.
  { rewrite !map_app. cbn [map act]. rewrite map_map. cbn [act].
    rewrite <- app_assoc. reflexivity. }
  rewrite Hact.
  split; [eexists; split; [apply settle_all_settled | reflexivity]|].
  split; [|done].
  rewrite List.filter_app. cbn [List.filter is_construct].
  rewrite List.filter_app, filter_construct_cleared.
  rewrite (filter_io_plain is_construct) by done.
  unfold disconnected. rewrite map_map. cbn [act].
  by rewrite (filter_io_map is_construct).
Qed.

Lemma connect_strategy_not_found_witness :
  effective_config (Some http_config) (new_Client (Some 1) None)
    = Some http_config
  /\ strategies (new_Client (Some 1) None) !! protocol http_config = None
  /\ (protocol http_config ∉ object_prototype_names)
  /\ 1 <= pool (options (new_Client (Some 1) None))
  /\ (settle_all (seq 0 (length (workers (new_Client (Some 1) None))))
        (disconnecting quiet)).2 = Returned tt
  /\ completion (connect (Some http_config) None quiet (new_Client (Some 1) None))
     = Thrown (mkError "Strategy for protocol http not found.")
  /\ final (connect (Some http_config) None quiet (new_Client (Some 1) None))
     = with_workers [] (with_config (Some http_config) (new_Client (Some 1) None)).
Proof.
  assert (strategies (new_Client (Some 1) None) !! protocol http_config = None)
    as Hs by (vm_compute; reflexivity).
  assert (protocol http_config ∉ object_prototype_names) as Hname
    by (apply (bool_decide_unpack _); vm_compute; exact I).
  assert (1 <= pool (options (new_Client (Some 1) None))) as Hp
    by (simpl; lia).
  split; [reflexivity|]. split; [exact Hs|]. split; [exact Hname|].
  split; [exact Hp|]. split; [reflexivity|].
  destruct (connect_strategy_not_found (Some http_config) None quiet
              (new_Client (Some 1) None) http_config eq_refl Hs Hname Hp eq_refl)
    as (Hc & _ & _ & Hf).
  split; [exact Hc | exact Hf].
Defined.

(** When a [disconnect()] of a previous worker rejects, [connect] ends
    with that rejection before it reaches [setWorkers]: the missing
    strategy is not reported. *)
Example connect_disconnect_rejected :
  strategies (unregisterProtocol "ftp" busy_client) !! "ftp" = None
  /\ completion (connect None None
                   {| disconnecting := [(1%nat, rejected (Failure 421))];
                      connecting := [] |}
                   (unregisterProtocol "ftp" busy_client))
     = Thrown (Failure 421).
Proof. vm_compute. done. Qed.

(** A protocol that names a member inherited from [Object.prototype] has
    no registered strategy either, and [connect] does not report a
    missing strategy for it: the member is not [undefined], and [new]
    fails on it or, for ['constructor'], gives back the config, on which
    [handleWorkerEvents] fails. *)
Example connect_inherited_protocol :
  let toString_config := {| protocol := "toString"; host := "example.org" |} in
  let constructor_config :=
    {| protocol := "constructor"; host := "example.org" |} in
  strategies (new_Client (Some 1) None) !! "toString" = None
  /\ completion (connect (Some toString_config) None quiet
                   (new_Client (Some 1) None))
     = Thrown (TypeError "strategy is not a constructor")
  /\ strategies (new_Client (Some 1) None) !! "constructor" = None
  /\ completion (createWorker
                   (with_config (Some constructor_config)
                      (new_Client (Some 1) None)))
     = Returned (the_config constructor_config)
  /\ completion (connect (Some constructor_config) None quiet
                   (new_Client (Some 1) None))
     = Thrown (TypeError "instance.on is not a function").
Proof. vm_compute. done. Qed.

(** C8, as stated, fails in two ways.  With a pool of one, the error for
    the missing strategy comes after the suspension of
    [await this.disconnect()], not before any suspension point; with a
    pool size of 0 no worker is created and [connect] does not fail at
    all. *)
Lemma connect_strategy_error_after_suspension :
  completion (connect (Some http_config) None quiet (new_Client (Some 1) None))
    = Thrown (mkError "Strategy for protocol http not found.")
  /\ actions (connect (Some http_config) None quiet (new_Client (Some 1) None))
     = [Io Suspend]
  /\ strategies (new_Client (Some 0) None) !! protocol http_config = None
  /\ completion (connect (Some http_config) None quiet (new_Client (Some 0) None))
     = Returned tt.
Proof. vm_compute. done. Qed.

(** ** The global [abort] *)

(** C5. [abort()] emits one 'transfer-abort' carrying the keys of the
    registry, which are exactly the transfer identities that have an
    entry; it then makes one call to the scheduler, [deleteAllTasks]; it
    then calls [abort()] on every worker of the pool, in pool order, and
    awaits them.  It makes no other call to the scheduler, emits no
    'transfer-finish' and leaves the registry and every other field as
    they were: the settlement of the running transfers is not touched. *)
Theorem abort_everything (schedule : list (nat * Outcome)) (c : Client) :
  exists settles : list IoAction,
    actions (abort schedule c) =
      [Emit (transfer_abort (JsMap.keys (transfers c)));
       Tasks tasks_deleteAllTasks]
      ++ map (fun w => Io (Call w s_abort)) (workers c)
      ++ Io Suspend :: map Io settles
    /\ Forall (fun a => is_settled a = true) settles
    /\ (forall id : Z,
          id ∈ JsMap.keys (transfers c) <-> JsMap.has id (transfers c) = true)
    /\ Forall (fun o => at_state o = c) (steps (abort schedule c))
    /\ final (abort schedule c) = c.
Proof.
  exists (settle_all (seq 0 (length (workers c))) schedule).1.
  unfold abort. rewrite bind_this, !bind_perform.
  rewrite (bind_returned _ _ _ tt) by (by rewrite forEach_perform).
  rewrite forEach_perform, await_all_run.
  unfold actions, steps, final, prefixed, completion. simpl.
  split.
  { rewrite map_app, !map_map. simpl. by rewrite map_map. }
  split; [apply settle_all_settled|].
  split; [intros id; apply JsMap_keys_has|].
  split; [|reflexivity].
  repeat (apply Forall_cons; split; [reflexivity|]).
  apply Forall_app; split; [|apply Forall_cons; split; [reflexivity|]];
    apply Forall_forall; intros o Ho; apply list_elem_of_fmap in Ho;
    by destruct Ho as (? & -> & _).
Qed.

Example abort_sample :
  exists w0 w1 : Strategy,
    workers busy_client = [w0; w1]
    /\ actions (abort [(1%nat, fulfilled); (0%nat, fulfilled)] busy_client) =
         [Emit (transfer_abort [3; 7]);
          Tasks tasks_deleteAllTasks;
          Io (Call w0 s_abort);
          Io (Call w1 s_abort);
          Io Suspend;
          Io (Settled 1 fulfilled);
          Io (Settled 0 fulfilled)]
    /\ completion (abort [(1%nat, fulfilled); (0%nat, fulfilled)] busy_client)
       = Returned tt.
Proof. eexists _, _. vm_compute. done. Qed.

(** ** [abortTransfer] *)

Example busy_client_pool :
  map oid (workers busy_client) = [0%nat; 1%nat]
  /\ JsMap.keys (transfers busy_client) = [3; 7].
Proof. vm_compute. done. Qed.

Lemma abortTransfer_forEach_run (ids : list Z) (wi : list JsNum)
    (ins : list (option Strategy)) (c : Client) :
  abortTransfer_forEach ids wi ins c =
    (Returned (wi ++ assigned_indexes ids c, ins ++ assigned_instances ids c),
     c,
     map (fun id => {| act := Emit (transfer_abort [id]); at_state := c |}) ids).
Proof.
  revert wi ins. induction ids as [|id ids IH]; intros wi ins.
  - simpl. unfold assigned_instances. simpl. by rewrite !app_nil_r.
  - cbn [abortTransfer_forEach]. rewrite bind_this, bind_perform, IH.
    unfold prefixed, completion, final, steps. simpl.
    rewrite <- app_assoc. simpl. do 2 f_equal. f_equal.
    unfold assigned_instances. simpl.
    destruct (not_nullish (JsMap.get id (transfers c))) eqn:E.
    + rewrite filter_cons_True by done. simpl. by rewrite <- app_assoc.
    + rewrite filter_cons_False by (rewrite E; discriminate). done.
Qed.

Lemma forEach_abort_instance_run (instances : list (option Strategy))
    (c : Client) :
  forEach abort_instance instances c =
    (if all_defined instances then Returned tt
     else Thrown (TypeError "Cannot read properties of undefined (reading 'abort')"),
     c,
     map (fun w => {| act := Io (Call w s_abort); at_state := c |})
       (invoked instances)).
Proof.
  induction instances as [|[w|] rest IH]; simpl; [done| |done].
  rewrite bind_perform, IH. unfold prefixed, completion, final, steps. simpl.
  reflexivity.
Qed.

Lemma invoked_all_defined (instances : list (option Strategy)) :
  all_defined instances = true -> map Some (invoked instances) = instances.
Proof.
  induction instances as [|[w|] rest IH]; simpl; intros H; [done| |done].
  by rewrite IH.
Qed.

Lemma invoked_subset (instances : list (option Strategy)) (w : Strategy) :
  w ∈ invoked instances -> Some w ∈ instances.
Proof.
  induction instances as [|[w'|] rest IH]; simpl; intros H.
  - by apply elem_of_nil in H.
  - apply elem_of_cons in H as [->|H]; [left | right; by apply IH].
  - by apply elem_of_nil in H.
Qed.

(** Every instance that [abortTransfer] collects is the worker that the
    registry assigns to one of the identities. *)
Lemma assigned_instances_spec (ids : list Z) (c : Client) (r : option Strategy) :
  r ∈ assigned_instances ids c ->
  exists (id : Z) (n : Z),
    id ∈ ids /\ JsMap.get id (transfers c) = num n
    /\ num n ∈ assigned_indexes ids c /\ r = getWorkerInstance n c.
Proof.
  unfold assigned_instances. intros H.
  apply list_elem_of_fmap in H as (x & -> & Hx).
  apply list_elem_of_filter in Hx as [Hnn Hx].
  pose proof Hx as Hx'.
  unfold assigned_indexes in Hx. apply list_elem_of_fmap in Hx as (id & -> & Hid).
  destruct (JsMap.get id (transfers c)) as [| |n] eqn:E; try discriminate.
  exists id, n. repeat split; done.
Qed.

Lemma assigned_instances_drop (ids : list Z) (c : Client) (id : Z) :
  not_nullish (JsMap.get id (transfers c)) = false ->
  assigned_instances (filter (fun i => i <> id) ids) c =
  assigned_instances ids c.
Proof.
  intros Hid. unfold assigned_instances, assigned_indexes.
  induction ids as [|i ids IH]; [done|].
  destruct (decide (i = id)) as [->|Hne].
  - rewrite filter_cons_False by tauto. simpl.
    rewrite filter_cons_False by (rewrite Hid; discriminate). exact IH.
  - rewrite filter_cons_True by done. simpl.
    destruct (not_nullish (JsMap.get i (transfers c))) eqn:E.
    + rewrite !filter_cons_True by done. simpl. by rewrite IH.
    + rewrite !filter_cons_False by (rewrite E; discriminate). exact IH.
Qed.

(** The whole run of [abortTransfer]. *)
Lemma abortTransfer_run (ids : list Z) (schedule : list (nat * Outcome))
    (c : Client) :
  let idxs := assigned_indexes ids c in
  let insts := assigned_instances ids c in
  let settling := settle_all (seq 0 (length insts)) schedule in
  final (abortTransfer ids schedule c) = c
  /\ completion (abortTransfer ids schedule c) =
       (if all_defined insts then settling.2
        else Thrown (TypeError "Cannot read properties of undefined (reading 'abort')"))
  /\ actions (abortTransfer ids schedule c) =
       map (fun id => Emit (transfer_abort [id])) ids
       ++ [Tasks (tasks_deleteTasks ids); Tasks (tasks_pauseWorkers idxs)]
       ++ map (fun w => Io (Call w s_abort)) (invoked insts)
       ++ (if all_defined insts
           then Io Suspend :: map Io settling.1
                ++ (if settling.2 is Returned _
                    then [Tasks (tasks_resumeWorkers idxs)] else [])
           else []).
Proof.
  cbv zeta. unfold abortTransfer.
  rewrite (bind_returned _ _ _ (assigned_indexes ids c, assigned_instances ids c))
    by (by rewrite abortTransfer_forEach_run).
  rewrite abortTransfer_forEach_run.
  cbn [steps final fst snd]. rewrite !bind_perform.
  destruct (all_defined (assigned_instances ids c)) eqn:Hdef.
  - rewrite (bind_returned _ _ _ tt)
      by (by rewrite forEach_abort_instance_run, Hdef).
    rewrite forEach_abort_instance_run. cbn [steps final fst snd].
    rewrite await_all_run_bind. cbv zeta.
    destruct (settle_all _ schedule) as [tr [[]|e|]];
      cbv [actions steps final prefixed completion perform fst snd];
      rewrite ?map_app, ?map_map; cbn [map app act];
      rewrite ?map_app, ?map_map, ?app_nil_r; done.
  - rewrite (bind_thrown _ _ _ (TypeError "Cannot read properties of undefined (reading 'abort')"))
      by (by rewrite forEach_abort_instance_run, Hdef).
    rewrite forEach_abort_instance_run.
    cbv [actions steps final prefixed completion perform fst snd].
    rewrite ?map_app, ?map_map; cbn [map app act].
    rewrite ?map_app, ?map_map, ?app_nil_r. done.
Qed.

Lemma filter_abort_calls_io (l : list IoAction) :
  Forall (fun a => is_settled a = true) l ->
  List.filter is_abort_call (map Io l) = [].
Proof.
  induction 1 as [|a l Ha _ IH]; simpl; [done|].
  destruct a; try discriminate. exact IH.
Qed.

Lemma filter_abort_calls_emits (ids : list Z) :
  List.filter is_abort_call (map (fun id => Emit (transfer_abort [id])) ids) = [].
Proof. induction ids; simpl; done. Qed.

Lemma filter_abort_calls_calls (ws : list Strategy) :
  List.filter is_abort_call (map (fun w => Io (Call w s_abort)) ws) =
  map (fun w => Io (Call w s_abort)) ws.
Proof. induction ws as [|w ws IH]; simpl; [done|]. by rewrite IH. Qed.

(** The [abort()] calls of a run of [abortTransfer], in order. *)
Lemma abortTransfer_abort_calls (ids : list Z) (schedule : list (nat * Outcome))
    (c : Client) :
  List.filter is_abort_call (actions (abortTransfer ids schedule c)) =
  map (fun w => Io (Call w s_abort)) (invoked (assigned_instances ids c)).
Proof.
  destruct (abortTransfer_run ids schedule c) as (_ & _ & ->). cbv zeta.
  rewrite !List.filter_app, filter_abort_calls_emits, filter_abort_calls_calls.
  simpl.
  destruct (all_defined _); [|by rewrite app_nil_r].
  simpl. rewrite List.filter_app, filter_abort_calls_io
    by apply settle_all_settled.
  destruct (settle_all _ _).2; simpl; by rewrite app_nil_r.
Qed.

(** The [resumeWorkers] calls of a run of [abortTransfer]: one, with the
    indexes that were paused, exactly when the run returns. *)
Lemma abortTransfer_resume_calls (ids : list Z)
    (schedule : list (nat * Outcome)) (c : Client) :
  List.filter is_resume_call (actions (abortTransfer ids schedule c)) =
  match completion (abortTransfer ids schedule c) with
  | Returned _ => [Tasks (tasks_resumeWorkers (assigned_indexes ids c))]
  | _ => []
  end.
Proof.
  destruct (abortTransfer_run ids schedule c) as (_ & -> & ->). cbv zeta.
  rewrite !List.filter_app.
  rewrite (filter_io_map is_resume_call) by done.
  assert (List.filter is_resume_call
            (map (fun id => Emit (transfer_abort [id])) ids) = []) as ->
    by (induction ids; simpl; done).
  simpl. destruct (all_defined _); [|done].
  simpl. rewrite List.filter_app, (filter_io_plain is_resume_call) by done.
  by destruct (settle_all _ _).2.
Qed.

(** C4. In every call of [abortTransfer] the single [pauseWorkers] call,
    carrying the registry index of each given identity, comes before
    every [abort()] of an assigned worker: the run is the
    'transfer-abort' notifications, [deleteTasks], [pauseWorkers], then
    the [abort()] calls, then the await.  [resumeWorkers] is called, with
    the same indexes, only as the last step of a run in which every one
    of those [abort()] promises has settled (fulfilled) before; a
    rejected or never-settling [abort()], or an undefined instance,
    leaves the workers paused. *)
Theorem abortTransfer_bracket (ids : list Z) (schedule : list (nat * Outcome))
    (c : Client) :
  exists (calls : list Strategy) (rest : list Action),
    actions (abortTransfer ids schedule c) =
      map (fun id => Emit (transfer_abort [id])) ids
      ++ [Tasks (tasks_deleteTasks ids);
          Tasks (tasks_pauseWorkers (assigned_indexes ids c))]
      ++ map (fun w => Io (Call w s_abort)) calls
      ++ rest
    /\ Forall (fun w =>
         exists (id : Z) (n : Z),
           id ∈ ids /\ JsMap.get id (transfers c) = num n
           /\ num n ∈ assigned_indexes ids c
           /\ getWorkerInstance n c = Some w) calls
    /\ ((rest = []
         /\ exists e, completion (abortTransfer ids schedule c) = Thrown e)
        \/ exists settles : list IoAction,
             Forall (fun a => is_settled a = true) settles
             /\ map Some calls = assigned_instances ids c
             /\ ((rest = Io Suspend :: map Io settles
                  /\ completion (abortTransfer ids schedule c) <> Returned tt)
                 \/ (rest = Io Suspend :: map Io settles
                            ++ [Tasks (tasks_resumeWorkers (assigned_indexes ids c))]
                     /\ completion (abortTransfer ids schedule c) = Returned tt
                     /\ Forall (fun k => In (Settled k fulfilled) settles)
                          (seq 0 (length calls))))).
Proof.
  destruct (abortTransfer_run ids schedule c) as (_ & Hcompl & Hact).
  cbv zeta in Hcompl, Hact.
  exists (invoked (assigned_instances ids c)).
  eexists. split; [exact Hact|]. split.
  - apply Forall_forall. intros w Hw%invoked_subset.
    apply assigned_instances_spec in Hw as (id & n & ? & ? & ? & ?).
    exists id, n. by repeat split.
  - rewrite Hcompl.
    destruct (all_defined (assigned_instances ids c)) eqn:Hdef.
    + right. exists (settle_all (seq 0 (length (assigned_instances ids c))) schedule).1.
      split; [apply settle_all_settled|].
      split; [by apply invoked_all_defined|].
      destruct (settle_all _ schedule).2 as [[]|e|] eqn:Hs.
      * right. split; [done|]. split; [done|].
        assert (length (invoked (assigned_instances ids c))
                = length (assigned_instances ids c)) as ->
          by (rewrite <- (invoked_all_defined _ Hdef) at 2;
              by rewrite length_map).
        by apply settle_all_returned.
      * left. split; [by rewrite app_nil_r | discriminate].
      * left. split; [by rewrite app_nil_r | discriminate].
    + left. split; [done|]. by eexists.
Qed.

Example abortTransfer_sample :
  map oid (workers busy_client) = [0%nat; 1%nat]
  /\ exists w : Strategy,
       getWorkerInstance 1 busy_client = Some w
       /\ actions (abortTransfer [3; 7] [(0%nat, fulfilled)] busy_client) =
            [Emit (transfer_abort [3]);
             Emit (transfer_abort [7]);
             Tasks (tasks_deleteTasks [3; 7]);
             Tasks (tasks_pauseWorkers [num 1; null]);
             Io (Call w s_abort);
             Io Suspend;
             Io (Settled 0 fulfilled);
             Tasks (tasks_resumeWorkers [num 1; null])]
       /\ actions (abortTransfer [3; 7] [(0%nat, rejected (Failure 4))]
                     busy_client) =
            [Emit (transfer_abort [3]);
             Emit (transfer_abort [7]);
             Tasks (tasks_deleteTasks [3; 7]);
             Tasks (tasks_pauseWorkers [num 1; null]);
             Io (Call w s_abort);
             Io Suspend;
             Io (Settled 0 (rejected (Failure 4)))].
Proof. split; [vm_compute; done|]. eexists. vm_compute. done. Qed.

(** C9. An identity given to [abortTransfer] whose registry value is not
    a number ([null]: announced but not dispatched; [undefined]: not in
    the registry) still has that value among the arguments of the
    [pauseWorkers] call, and of the [resumeWorkers] call that a completed
    run makes, but no [abort()] is invoked for it: the [abort()] calls are
    those of the call without this identity.  With no other identity the
    run pauses and resumes that one value and calls no [abort()] at
    all. *)
Theorem abortTransfer_unassigned (ids : list Z)
    (schedule : list (nat * Outcome)) (c : Client) (id : Z) :
  id ∈ ids ->
  not_nullish (JsMap.get id (transfers c)) = false ->
  let idxs := assigned_indexes ids c in
  let x := JsMap.get id (transfers c) in
  (x = null \/ x = undefined)
  /\ x ∈ idxs
  /\ In (Tasks (tasks_pauseWorkers idxs)) (actions (abortTransfer ids schedule c))
  /\ (completion (abortTransfer ids schedule c) = Returned tt <->
      In (Tasks (tasks_resumeWorkers idxs)) (actions (abortTransfer ids schedule c)))
  /\ List.filter is_abort_call (actions (abortTransfer ids schedule c)) =
     List.filter is_abort_call
       (actions (abortTransfer (filter (fun i => i <> id) ids) schedule c))
  /\ actions (abortTransfer [id] schedule c) =
       [Emit (transfer_abort [id]);
        Tasks (tasks_deleteTasks [id]);
        Tasks (tasks_pauseWorkers [x]);
        Io Suspend;
        Tasks (tasks_resumeWorkers [x])]
  /\ completion (abortTransfer [id] schedule c) = Returned tt.
Proof.
  intros Hin Hnull idxs x.
  split; [subst x; destruct (JsMap.get id (transfers c)); auto; discriminate|].
  split; [unfold idxs, assigned_indexes; apply list_elem_of_fmap; by exists id|].
  split.
  { destruct (abortTransfer_run ids schedule c) as (_ & _ & ->). cbv zeta.
    apply in_or_app. right. simpl. auto. }
  split.
  { pose proof (abortTransfer_resume_calls ids schedule c) as Hres.
    fold idxs in Hres. split.
    - intros Hret. rewrite Hret in Hres.
      apply (proj1 (filter_In is_resume_call _ _)). rewrite Hres. by left.
    - intros Hcall.
      assert (In (Tasks (tasks_resumeWorkers idxs))
                (List.filter is_resume_call
                   (actions (abortTransfer ids schedule c)))) as Hf
        by (by apply filter_In).
      rewrite Hres in Hf.
      destruct (completion (abortTransfer ids schedule c)) as [[]| |];
        [done | destruct Hf | destruct Hf]. }
  split.
  { rewrite !abortTransfer_abort_calls. by rewrite assigned_instances_drop. }
  destruct (abortTransfer_run [id] schedule c) as (_ & Hc1 & Ha1).
  cbv zeta in Hc1, Ha1.
  assert (assigned_instances [id] c = []) as Hnone.
  { unfold assigned_instances, assigned_indexes. simpl.
    rewrite filter_cons_False by (rewrite Hnull; discriminate). done. }
  rewrite Hnone in Hc1, Ha1. simpl in Hc1, Ha1.
  rewrite settle_all_nil in Hc1, Ha1. simpl in Hc1, Ha1.
  by rewrite Ha1, Hc1.
Qed.

Lemma abortTransfer_unassigned_witness :
  7 ∈ [3; 7]
  /\ not_nullish (JsMap.get 7 (transfers busy_client)) = false
  /\ In (Tasks (tasks_pauseWorkers [num 1; null]))
       (actions (abortTransfer [3; 7] [(0%nat, fulfilled)] busy_client))
  /\ In (Tasks (tasks_resumeWorkers [num 1; null]))
       (actions (abortTransfer [3; 7] [(0%nat, fulfilled)] busy_client))
  /\ List.filter is_abort_call
       (actions (abortTransfer [3; 7] [(0%nat, fulfilled)] busy_client)) =
     List.filter is_abort_call
       (actions (abortTransfer [3] [(0%nat, fulfilled)] busy_client)).
Proof.
  assert (7 ∈ [3; 7]) as Hin by (right; left).
  assert (not_nullish (JsMap.get 7 (transfers busy_client)) = false) as Hn
    by reflexivity.
  split; [exact Hin|]. split; [exact Hn|].
  destruct (abortTransfer_unassigned [3; 7] [(0%nat, fulfilled)] busy_client 7
              Hin Hn) as (_ & _ & Hpause & Hresume & Hcalls & _).
  split; [exact Hpause|].
  split; [apply Hresume; vm_compute; reflexivity|].
  exact Hcalls.
Defined.

(** ** [handleTransfer] *)

Lemma handleTransfer_starve (fn : TaskEvent -> Op unit)
    (direction : ITransferDirection) (env : TransferEnv) (c : Client) :
  scheduling env = starve ->
  handleTransfer fn direction env c =
    (Pending, announced_state env c,
     [{| act := Tasks tasks_createTaskId; at_state := c |};
      {| act := Emit (transfer_new (transfer_of direction env));
         at_state := announced_state env c |};
      {| act := Tasks (tasks_handle (Some "transfer-transfer") (Some (new_id env)));
         at_state := announced_state env c |}]).
Proof.
  intros Hs. unfold handleTransfer.
  rewrite bind_perform, bind_this, bind_assign, bind_perform.
  unfold try_rethrow_finally, handle. rewrite Hs. reflexivity.
Qed.

Lemma handleTransfer_cancel (fn : TaskEvent -> Op unit)
    (direction : ITransferDirection) (env : TransferEnv) (c : Client)
    (e : Error) :
  scheduling env = cancel e ->
  handleTransfer fn direction env c =
    (Thrown e, settled_state env (announced_state env c),
     [{| act := Tasks tasks_createTaskId; at_state := c |};
      {| act := Emit (transfer_new (transfer_of direction env));
         at_state := announced_state env c |};
      {| act := Tasks (tasks_handle (Some "transfer-transfer") (Some (new_id env)));
         at_state := announced_state env c |};
      {| act := Emit (transfer_finish (transfer_of direction env));
         at_state := settled_state env (announced_state env c) |}]).
Proof.
  intros Hs. unfold handleTransfer.
  rewrite bind_perform, bind_this, bind_assign, bind_perform.
  unfold try_rethrow_finally, handle. rewrite Hs. reflexivity.
Qed.

Lemma handleTransfer_dispatch (fn : TaskEvent -> Op unit)
    (direction : ITransferDirection) (env : TransferEnv) (c : Client)
    (i : Z) :
  scheduling env = dispatch i ->
  let op := fn (task_event i env c) in
  let c1 := announced_state env c in
  let c2 := dispatched_state i env c1 in
  handleTransfer fn direction env c =
    (op.2,
     (if op.2 is Pending then c2 else settled_state env c2),
     [{| act := Tasks tasks_createTaskId; at_state := c |};
      {| act := Emit (transfer_new (transfer_of direction env)); at_state := c1 |};
      {| act := Tasks (tasks_handle (Some "transfer-transfer") (Some (new_id env)));
         at_state := c1 |};
      {| act := Dispatched i; at_state := c1 |}]
     ++ map (fun a => {| act := Io a; at_state := c2 |}) op.1
     ++ (if op.2 is Pending then []
         else [{| act := Emit (transfer_finish (transfer_of direction env));
                  at_state := settled_state env c2 |}])).
Proof.
  intros Hs. cbv zeta. unfold handleTransfer.
  rewrite bind_perform, bind_this, bind_assign, bind_perform.
  unfold try_rethrow_finally, handle. rewrite Hs.
  rewrite !bind_perform, !bind_this, !bind_assign.
  change (getWorkerInstance i (with_transfers _ c)) with (getWorkerInstance i c).
  fold (task_event i env c).
  destruct (fn (task_event i env c)) as [tr [[]|e|]];
    cbv [lift_op prefixed completion final steps perform fst snd mbind M_bind];
    cbn [app]; rewrite ?app_nil_r; reflexivity.
Qed.

(** C3. In every run of [handleTransfer] (so of every [download] and
    [upload]) the registry holds an entry for the transfer identity at
    each step from the 'transfer-new' notification up to the
    'transfer-finish' notification: the entry is [null] when
    'transfer-new' is emitted, it is the real worker index at every step
    of the operation once the scheduler has run the callback, and it is
    removed only in the finally clause, immediately before
    'transfer-finish' is emitted (or never, while the task is pending). *)
Theorem handleTransfer_registry (fn : TaskEvent -> Op unit)
    (direction : ITransferDirection) (env : TransferEnv) (c : Client) :
  let r := handleTransfer fn direction env c in
  let id := new_id env in
  let t := transfer_of direction env in
  (exists (s : Client) (rest : list Obs),
     announced (steps r) =
       {| act := Emit (transfer_new t); at_state := s |} :: rest
     /\ JsMap.get id (transfers s) = null)
  /\ Forall (fun o => JsMap.has id (transfers (at_state o)) = true)
       (announced (steps r))
  /\ match scheduling env with
     | dispatch i =>
         operating (steps r) =
           map (fun a => {| act := Io a;
                            at_state := dispatched_state i env
                                          (announced_state env c) |})
             (fn (task_event i env c)).1
         /\ Forall (fun o => JsMap.get id (transfers (at_state o)) = num i)
              (operating (steps r))
     | _ => operating (steps r) = []
     end
  /\ steps r =
       {| act := Tasks tasks_createTaskId; at_state := c |}
       :: announced (steps r)
       ++ match completion r with
          | Pending => []
          | _ => [{| act := Emit (transfer_finish t); at_state := final r |}]
          end
  /\ match completion r with
     | Pending => JsMap.has id (transfers (final r)) = true
     | _ => JsMap.has id (transfers (final r)) = false
     end.
Proof.
  cbv zeta. destruct (scheduling env) as [i|e|] eqn:Hs.
  - rewrite (handleTransfer_dispatch _ _ _ _ i Hs). cbv zeta.
    destruct (fn (task_event i env c)) as [tr compl].
    cbn [fst snd]. unfold announced, operating, after_first, steps, completion, final.
    cbn [fst snd from_first before_first act is_transfer_new is_transfer_finish
         is_dispatched app tail].
    rewrite !before_first_io by done.
    assert (JsMap.has (new_id env)
              (transfers (dispatched_state i env (announced_state env c))) = true)
      as Hhas by apply JsMap_has_set_eq.
    assert (JsMap.get (new_id env)
              (transfers (dispatched_state i env (announced_state env c))) = num i)
      as Hget by apply JsMap_get_set_eq.
    assert (JsMap.has (new_id env) (transfers (announced_state env c)) = true)
      as Hhas1 by apply JsMap_has_set_eq.
    split.
    { eexists _, _. split; [reflexivity|]. apply JsMap_get_set_eq. }
    split.
    { repeat (apply Forall_cons; split; [exact Hhas1|]).
      apply Forall_app. split.
      - by apply (Forall_lifted (fun s => JsMap.has (new_id env) (transfers s) = true)).
      - destruct compl; simpl; constructor. }
    split.
    { assert (before_first is_transfer_finish
                match compl with
                | Pending => []
                | _ => [{| act := Emit (transfer_finish (transfer_of direction env));
                           at_state := settled_state env
                             (dispatched_state i env (announced_state env c)) |}]
                end = []) as -> by (by destruct compl).
      rewrite app_nil_r. split; [done|].
      by apply (Forall_lifted (fun s => JsMap.get (new_id env) (transfers s) = num i)). }
    split.
    { destruct compl; simpl; rewrite ?app_nil_r; reflexivity. }
    destruct compl; try apply JsMap_has_delete_eq. exact Hhas.
  - rewrite (handleTransfer_cancel _ _ _ _ e Hs).
    unfold announced, operating, after_first, steps, completion, final.
    cbn [fst snd from_first before_first act is_transfer_new is_transfer_finish
         is_dispatched app tail].
    split.
    { eexists _, _. split; [reflexivity|]. apply JsMap_get_set_eq. }
    split.
    { repeat (apply Forall_cons; split; [apply JsMap_has_set_eq|]). constructor. }
    split; [done|]. split; [done|]. apply JsMap_has_delete_eq.
  - rewrite (handleTransfer_starve _ _ _ _ Hs).
    unfold announced, operating, after_first, steps, completion, final.
    cbn [fst snd from_first before_first act is_transfer_new is_transfer_finish
         is_dispatched app tail].
    split.
    { eexists _, _. split; [reflexivity|]. apply JsMap_get_set_eq. }
    split.
    { repeat (apply Forall_cons; split; [apply JsMap_has_set_eq|]). constructor. }
    split; [done|]. split; [done|]. apply JsMap_has_set_eq.
Qed.

(** A run of [handleTransfer] for one identity changes the registry at
    no other identity, at none of its steps: transfers that overlap in
    time do not disturb each other's entries. *)
Lemma handleTransfer_frame (fn : TaskEvent -> Op unit)
    (direction : ITransferDirection) (env : TransferEnv) (c : Client)
    (other : Z) :
  other <> new_id env ->
  Forall (fun o =>
            JsMap.get other (transfers (at_state o)) =
              JsMap.get other (transfers c)
            /\ JsMap.has other (transfers (at_state o)) =
                 JsMap.has other (transfers c))
    (steps (handleTransfer fn direction env c))
  /\ JsMap.get other (transfers (final (handleTransfer fn direction env c))) =
     JsMap.get other (transfers c)
  /\ JsMap.has other (transfers (final (handleTransfer fn direction env c))) =
     JsMap.has other (transfers c).
Proof.
  intros Hne.
  assert (forall m, JsMap.get other (JsMap.set (new_id env) null m)
                    = JsMap.get other m) as G1
    by (intros; by apply JsMap_get_set_ne).
  assert (forall i m, JsMap.get other (JsMap.set (new_id env) (num i) m)
                      = JsMap.get other m) as G2
    by (intros; by apply JsMap_get_set_ne).
  assert (forall m, JsMap.get other (JsMap.delete (new_id env) m)
                    = JsMap.get other m) as G3
    by (intros; by apply JsMap_get_delete_ne).
  assert (forall v m, JsMap.has other (JsMap.set (new_id env) v m)
                      = JsMap.has other m) as H1
    by (intros; by apply JsMap_has_set_ne).
  assert (forall m, JsMap.has other (JsMap.delete (new_id env) m)
                    = JsMap.has other m) as H3
    by (intros; by apply JsMap_has_delete_ne).
  destruct (scheduling env) as [i|e|] eqn:Hs.
  - rewrite (handleTransfer_dispatch _ _ _ _ i Hs). cbv zeta.
    destruct (fn (task_event i env c)) as [tr compl].
    unfold steps, final. cbn [fst snd].
    split.
    + repeat (apply Forall_cons; split;
                [cbn [at_state transfers announced_state with_transfers];
                 by rewrite ?G1, ?H1|]).
      apply Forall_app. split.
      * apply (Forall_lifted
                 (fun s => JsMap.get other (transfers s) = JsMap.get other (transfers c)
                           /\ JsMap.has other (transfers s) = JsMap.has other (transfers c))).
        cbn [transfers dispatched_state announced_state with_transfers].
        by rewrite G2, G1, !H1.
      * destruct compl; repeat constructor;
          cbn [at_state transfers settled_state dispatched_state
               announced_state with_transfers];
          by rewrite ?G3, ?G2, ?G1, ?H3, ?H1.
    + destruct compl;
        cbn [transfers settled_state dispatched_state announced_state
             with_transfers];
        by rewrite ?G3, ?G2, ?G1, ?H3, ?H1.
  - rewrite (handleTransfer_cancel _ _ _ _ e Hs). unfold steps, final.
    cbn [fst snd]. split.
    + repeat (apply Forall_cons; split;
                [cbn [at_state transfers settled_state announced_state
                      with_transfers];
                 by rewrite ?G3, ?G1, ?H3, ?H1|]).
      constructor.
    + cbn [transfers settled_state announced_state with_transfers].
      by rewrite G3, G1, H3, H1.
  - rewrite (handleTransfer_starve _ _ _ _ Hs). unfold steps, final.
    cbn [fst snd]. split.
    + repeat (apply Forall_cons; split;
                [cbn [at_state transfers announced_state with_transfers];
                 by rewrite ?G1, ?H1|]).
      constructor.
    + cbn [transfers announced_state with_transfers]. by rewrite G1, H1.
Qed.

Example handleTransfer_sample :
  map (fun o => JsMap.get 9 (transfers (at_state o)))
    (steps (upload (inl "a.bin") "/pub/a.bin"
              {| size_result := Some (inl 512);
                 transfer_result := Some (inl tt) |}
              {| new_id := 9; scheduling := dispatch 1 |} busy_client))
  = [undefined; null; null; null;
     num 1; num 1; num 1; num 1; num 1; num 1;
     undefined]
  /\ map is_transfer_new
       (actions (upload (inl "a.bin") "/pub/a.bin"
                   {| size_result := Some (inl 512);
                      transfer_result := Some (inl tt) |}
                   {| new_id := 9; scheduling := dispatch 1 |} busy_client))
     = [false; true; false; false;
        false; false; false; false; false; false;
        false].
Proof. vm_compute. done. Qed.




(** When [fs] opens the stream, [download] is the run of
    [handleTransfer] on its operation; when [fs] refuses [startAt],
    [download] throws before anything is done. *)
Lemma download_opens (dest : string + Stream) (remote : string)
    (startAt : option Z) (senv : StrategyEnv) (env : TransferEnv) :
  opens dest startAt = true ->
  download dest remote startAt senv env =
    handleTransfer
      (download_fn (download_stream dest startAt) (local_path dest) remote
         startAt senv)
      {| dir_remotePath := remote; dir_localPath := local_path dest |} env.
Proof. intros Ho. unfold download. by rewrite Ho. Qed.




(* ===================================================================== *)
(** * Further properties *)
(* ===================================================================== *)

(** ** The pool that [setWorkers] builds *)

Lemma built_S (a : nat) (cfg : IConfig) (opts : option IOptions)
    (cls : StrategyClass) (n : nat) :
  built a cfg opts cls (S n) =
    {| oid := a; class := cls; s_config := Some cfg; s_options := opts |}
    :: built (S a) cfg opts cls n.
Proof.
  unfold built. cbn [seq map]. rewrite Nat.add_0_r. f_equal.
  rewrite <- seq_shift, map_map. apply map_ext. intros k.
  f_equal. lia.
Qed.

Lemma length_built (a : nat) (cfg : IConfig) (opts : option IOptions)
    (cls : StrategyClass) (n : nat) :
  length (built a cfg opts cls n) = n.
Proof. unfold built. by rewrite length_map, length_seq. Qed.

Lemma oid_built (a : nat) (cfg : IConfig) (opts : option IOptions)
    (cls : StrategyClass) (n : nat) :
  map oid (built a cfg opts cls n) = seq a n.
Proof.
  revert a. induction n as [|n IH]; intros a; [done|].
  rewrite built_S. cbn [map oid seq]. by rewrite IH.
Qed.

Lemma setWorkers_body_run (c : Client) (cfg : IConfig) (cls : StrategyClass) :
  _config c = Some cfg ->
  strategies c !! protocol cfg = Some cls ->
  let w := {| oid := allocated c; class := cls; s_config := Some cfg;
              s_options := _connectionOptions c |} in
  completion (setWorkers_body c) = Returned tt
  /\ final (setWorkers_body c) =
       with_workers (workers c ++ [w]) (with_allocated (S (allocated c)) c)
  /\ actions (setWorkers_body c) = constructed w.
Proof.
  intros Hc Hs. cbv zeta. unfold setWorkers_body.
  pose proof (createWorker_found c cfg cls Hc Hs) as Hw. cbv zeta in Hw.
  rewrite (bind_returned _ _ _ _ ltac:(by rewrite Hw)).
  rewrite Hw. cbn [steps final fst snd].
  rewrite (bind_returned _ _ _ tt) by reflexivity.
  rewrite handleWorkerEvents_run. cbn [steps final fst snd].
  rewrite bind_this. by repeat split.
Qed.

(** [n] rounds of the loop. *)
Lemma times_setWorkers_body_run (n : nat) (c : Client) (cfg : IConfig)
    (cls : StrategyClass) :
  _config c = Some cfg ->
  strategies c !! protocol cfg = Some cls ->
  completion (times n setWorkers_body c) = Returned tt
  /\ final (times n setWorkers_body c) =
       with_workers
         (workers c ++ built (allocated c) cfg (_connectionOptions c) cls n)
         (with_allocated (allocated c + n) c)
  /\ actions (times n setWorkers_body c) =
       concat (map constructed
                 (built (allocated c) cfg (_connectionOptions c) cls n)).
Proof.
  revert c. induction n as [|n IH]; intros c Hc Hs.
  - cbn [times]. unfold completion, final, actions, steps, built.
    cbn [fst snd map seq concat mret M_ret]. rewrite app_nil_r, Nat.add_0_r.
    split; [done|]. split; [by destruct c|done].
  - cbn [times].
    destruct (setWorkers_body_run c cfg cls Hc Hs) as (Hret & Hfin & Hact).
    rewrite (bind_returned _ _ _ tt Hret).
    rewrite completion_prefixed, final_prefixed, actions_prefixed.
    fold (actions (setWorkers_body c)). rewrite Hact, Hfin.
    destruct (IH (with_workers
                    (workers c ++
                     [{| oid := allocated c; class := cls; s_config := Some cfg;
                         s_options := _connectionOptions c |}])
                    (with_allocated (S (allocated c)) c)) Hc Hs)
      as (H1 & H2 & H3).
    rewrite H1, H2, H3. rewrite built_S.
    cbn [workers allocated _connectionOptions with_workers with_allocated
         map concat].
    split; [done|]. split; [|done].
    rewrite <- app_assoc. cbn [app].
    unfold with_workers, with_allocated.
    cbn [_config _connectionOptions options workers transfers strategies
         allocated].
    f_equal. lia.
Qed.

(** The whole of [setWorkers] when the protocol has a strategy. *)
Lemma setWorkers_run (c : Client) (cfg : IConfig) (cls : StrategyClass) :
  _config c = Some cfg ->
  strategies c !! protocol cfg = Some cls ->
  let n := Z.to_nat (pool (options c)) in
  let ws := built (allocated c) cfg (_connectionOptions c) cls n in
  completion (setWorkers c) = Returned tt
  /\ final (setWorkers c) =
       with_workers ws (with_allocated (allocated c + n) c)
  /\ actions (setWorkers c) =
       concat (map unlistened (workers c))
       ++ concat (map constructed ws)
       ++ [Tasks (tasks_setWorkers
                    (groups (pool (options c)) (transferPool (options c))))].
Proof.
  intros Hc Hs. cbv zeta. unfold setWorkers. rewrite bind_this.
  rewrite (bind_returned _ _ _ tt) by (by rewrite forEach_clearWorkerEvents_run).
  rewrite forEach_clearWorkerEvents_run. cbn [steps final fst snd].
  rewrite bind_assign.
  destruct (times_setWorkers_body_run (Z.to_nat (pool (options c)))
              (with_workers [] c) cfg cls Hc Hs) as (H1 & H2 & H3).
  rewrite (bind_returned _ _ _ tt H1), setWorkerGroups_run.
  rewrite completion_prefixed, final_prefixed, !actions_prefixed.
  fold (actions (times (Z.to_nat (pool (options c))) setWorkers_body
                   (with_workers [] c))).
  rewrite H2, H3.
  cbn [workers allocated _connectionOptions options with_workers
       with_allocated app].
  split; [done|]. split; [done|].
  f_equal.
  induction (workers c) as [|w ws IH]; [done|].
  cbn [map concat cleared unlistened app act]. by rewrite IH.
Qed.

(** X1. With a strategy registered for the protocol of the saved config,
    [setWorkers] replaces the pool by [pool] newly constructed instances
    of that strategy, each built from the saved config and connection
    options; they are distinct objects, none of them constructed before,
    and nothing else of the client changes. *)
Theorem setWorkers_replaces_pool (c : Client) (cfg : IConfig)
    (cls : StrategyClass) :
  _config c = Some cfg ->
  strategies c !! protocol cfg = Some cls ->
  let c' := final (setWorkers c) in
  completion (setWorkers c) = Returned tt
  /\ length (workers c') = Z.to_nat (pool (options c))
  /\ Forall (fun w => class w = cls
                      /\ s_config w = Some cfg
                      /\ s_options w = _connectionOptions c
                      /\ (allocated c <= oid w < allocated c')%nat)
       (workers c')
  /\ NoDup (map oid (workers c'))
  /\ _config c' = _config c
  /\ _connectionOptions c' = _connectionOptions c
  /\ options c' = options c
  /\ transfers c' = transfers c
  /\ strategies c' = strategies c.
Proof.
  intros Hc Hs. cbv zeta.
  destruct (setWorkers_run c cfg cls Hc Hs) as (Hret & -> & _).
  cbn [workers allocated _config _connectionOptions options transfers
       strategies with_workers with_allocated].
  split; [exact Hret|]. split; [apply length_built|].
  split.
  - apply Forall_forall. intros w Hw. unfold built in Hw.
    apply list_elem_of_fmap in Hw as (k & -> & Hk).
    apply elem_of_seq in Hk. cbn [class s_config s_options oid].
    repeat split; lia.
  - split; [|done]. rewrite oid_built. apply NoDup_ListNoDup, List.seq_NoDup.
Qed.

Lemma setWorkers_replaces_pool_witness :
  _config unconnected_client = Some ftp_config
  /\ strategies unconnected_client !! protocol ftp_config = Some FtpStrategy
  /\ map oid (workers (final (setWorkers unconnected_client)))
     = [0%nat; 1%nat]
  /\ NoDup (map oid (workers (final (setWorkers unconnected_client)))).
Proof.
  assert (strategies unconnected_client !! protocol ftp_config
          = Some FtpStrategy) as Hs by (vm_compute; reflexivity).
  split; [reflexivity|]. split; [exact Hs|]. split; [vm_compute; reflexivity|].
  destruct (setWorkers_replaces_pool unconnected_client ftp_config FtpStrategy
              eq_refl Hs) as (_ & _ & _ & Hnd & _).
  exact Hnd.
Defined.

(** X2. [setWorkers] first removes the three event handlers from every
    worker of the previous pool, in pool order; it then constructs the
    new workers one by one, attaching the three handlers to each right
    after its construction; its last step hands the labels to the
    scheduler.  No handler is attached to a previous worker and none is
    removed from a new one. *)
Theorem setWorkers_listeners (c : Client) (cfg : IConfig)
    (cls : StrategyClass) :
  _config c = Some cfg ->
  strategies c !! protocol cfg = Some cls ->
  actions (setWorkers c) =
    concat (map unlistened (workers c))
    ++ concat (map constructed (workers (final (setWorkers c))))
    ++ [Tasks (tasks_setWorkers
                 (groups (pool (options c)) (transferPool (options c))))].
Proof.
  intros Hc Hs.
  destruct (setWorkers_run c cfg cls Hc Hs) as (_ & Hfin & Hact).
  cbv zeta in Hfin, Hact. rewrite Hact, Hfin. reflexivity.
Qed.

Lemma setWorkers_listeners_witness :
  _config stale_client = Some ftp_config
  /\ strategies stale_client !! protocol ftp_config = Some FtpStrategy
  /\ exists old new : Strategy,
       actions (setWorkers stale_client)
       = unlistened old ++ constructed new ++ [Tasks (tasks_setWorkers [All])]
       /\ oid old = 5%nat /\ oid new = 6%nat /\ class new = FtpStrategy.
Proof.
  assert (strategies stale_client !! protocol ftp_config = Some FtpStrategy)
    as Hs by (vm_compute; reflexivity).
  split; [reflexivity|]. split; [exact Hs|].
  eexists _, _. split.
  - rewrite (setWorkers_listeners stale_client ftp_config FtpStrategy eq_refl Hs).
    vm_compute. reflexivity.
  - repeat split; reflexivity.
Defined.

(** ** [connect], further *)

Lemma saved_allocated (config : option IConfig) (opts : option IOptions)
    (c : Client) :
  allocated (saved config opts c) = allocated c.
Proof. by destruct config, opts. Qed.

(** [connect] from the guard to its end, when a config is at hand, its
    protocol has a strategy and the previous workers disconnect. *)
Lemma connect_built (config : option IConfig) (opts : option IOptions)
    (env : ConnectEnv) (c : Client) (cfg : IConfig) (cls : StrategyClass) :
  effective_config config c = Some cfg ->
  strategies c !! protocol cfg = Some cls ->
  (settle_all (seq 0 (length (workers c))) (disconnecting env)).2 = Returned tt ->
  let c1 := saved config opts c in
  let n := Z.to_nat (pool (options c)) in
  let ws := built (allocated c) cfg (_connectionOptions c1) cls n in
  let settling := settle_all (seq 0 n) (connecting env) in
  completion (connect config opts env c) = settling.2
  /\ final (connect config opts env c) =
       with_workers ws (with_allocated (allocated c + n) c1)
  /\ actions (connect config opts env c) =
       map (fun w => Io (Call w s_disconnect)) (workers c)
       ++ Io Suspend
          :: map Io (settle_all (seq 0 (length (workers c)))
                       (disconnecting env)).1
       ++ concat (map unlistened (workers c))
       ++ concat (map constructed ws)
       ++ [Tasks (tasks_setWorkers
                    (groups (pool (options c)) (transferPool (options c))))]
       ++ map (fun w => Io (Call w s_connect)) ws
       ++ Io Suspend :: map Io settling.1.
Proof.
  intros Hcfg Hs Hdis. cbv zeta.
  rewrite (connect_run _ _ _ _ cfg Hcfg Hdis).
  destruct (saved_fields config opts c) as (Hst & Hop & Hw & _ & _).
  pose proof (saved_allocated config opts c) as Hal.
  assert (_config (saved config opts c) = Some cfg) as Hc1
    by (by rewrite saved_config).
  assert (strategies (saved config opts c) !! protocol cfg = Some cls) as Hs1
    by (by rewrite Hst).
  destruct (setWorkers_run _ cfg cls Hc1 Hs1) as (Hret & Hfin & Hact).
  cbv zeta in Hfin, Hact. rewrite ?Hop, ?Hal, ?Hw in Hfin, Hact.
  rewrite (bind_returned _ _ _ tt Hret), bind_this.
  rewrite Hfin. cbn [workers with_workers].
  rewrite (bind_returned _ _ _ tt) by (by rewrite forEach_perform).
  rewrite forEach_perform, await_all_run. cbn [steps final fst snd].
  rewrite length_built, disconnect_run.
  rewrite !completion_prefixed, !final_prefixed, !actions_prefixed.
  fold (actions (setWorkers (saved config opts c))). rewrite Hact.
  cbn [steps fst snd].
  split; [done|]. split; [done|].
  unfold disconnected, actions, steps. cbn [snd].
  rewrite !map_app, !map_map. cbn [map act].
  rewrite Hw.
  repeat (rewrite <- app_assoc || rewrite <- app_comm_cons). reflexivity.
Qed.

Lemma filter_concat_nil {T : Type} (P : Action -> bool) (f : T -> list Action)
    (l : list T) :
  (forall x, List.filter P (f x) = []) ->
  List.filter P (concat (map f l)) = [].
Proof.
  intros Hf. induction l as [|x l IH]; [done|].
  cbn [map concat]. by rewrite List.filter_app, Hf, IH.
Qed.

Lemma filter_settled (P : Action -> bool) (l : list IoAction) :
  (forall i o, P (Io (Settled i o)) = false) ->
  Forall (fun a => is_settled a = true) l ->
  List.filter P (map Io l) = [].
Proof.
  intros HP. induction 1 as [|a l Ha _ IH]; [done|].
  destruct a; try discriminate. cbn [map List.filter]. by rewrite HP.
Qed.

Lemma filter_calls_all (P : Action -> bool) (m : StrategyCall)
    (ws : list Strategy) :
  (forall w, P (Io (Call w m)) = true) ->
  List.filter P (map (fun w => Io (Call w m)) ws) =
  map (fun w => Io (Call w m)) ws.
Proof.
  intros HP. induction ws as [|w ws IH]; [done|].
  cbn [map List.filter]. by rewrite HP, IH.
Qed.

Lemma filter_calls_none (P : Action -> bool) (m : StrategyCall)
    (ws : list Strategy) :
  (forall w, P (Io (Call w m)) = false) ->
  List.filter P (map (fun w => Io (Call w m)) ws) = [].
Proof.
  intros HP. induction ws as [|w ws IH]; [done|].
  cbn [map List.filter]. by rewrite HP, IH.
Qed.

(** X3. When a config is at hand, its protocol has a strategy and the
    previous workers disconnect, [connect] saves the arguments given,
    replaces the pool by [pool] new workers built from the config and
    options now saved, calls [connect()] once on each of them in pool
    order (and on no previous worker), and ends as the awaiting of these
    calls ends.  The saved arguments and the new pool stay also when a
    worker fails to connect; the registry is not touched. *)
Theorem connect_builds_and_connects (config : option IConfig)
    (opts : option IOptions) (env : ConnectEnv) (c : Client) (cfg : IConfig)
    (cls : StrategyClass) :
  effective_config config c = Some cfg ->
  strategies c !! protocol cfg = Some cls ->
  (settle_all (seq 0 (length (workers c))) (disconnecting env)).2 = Returned tt ->
  let r := connect config opts env c in
  let n := Z.to_nat (pool (options c)) in
  completion r = (settle_all (seq 0 n) (connecting env)).2
  /\ _config (final r) = Some cfg
  /\ _connectionOptions (final r) =
     (if opts is Some _ then opts else _connectionOptions c)
  /\ length (workers (final r)) = n
  /\ Forall (fun w => class w = cls
                      /\ s_config w = Some cfg
                      /\ s_options w = _connectionOptions (final r))
       (workers (final r))
  /\ List.filter is_connect_call (actions r) =
     map (fun w => Io (Call w s_connect)) (workers (final r))
  /\ transfers (final r) = transfers c.
Proof.
  intros Hcfg Hs Hdis. cbv zeta.
  destruct (connect_built config opts env c cfg cls Hcfg Hs Hdis)
    as (Hcompl & Hfin & Hact).
  cbv zeta in Hcompl, Hfin, Hact. rewrite Hcompl, Hfin, Hact.
  destruct (saved_fields config opts c) as (_ & _ & _ & Htr & Hopt).
  cbn [workers allocated _config _connectionOptions options transfers
       strategies with_workers with_allocated].
  split; [done|]. split; [by rewrite saved_config|]. split; [exact Hopt|].
  split; [apply length_built|]. split.
  { apply Forall_forall. intros w Hw. unfold built in Hw.
    apply list_elem_of_fmap in Hw as (k & -> & _). by repeat split. }
  split; [|exact Htr].
  rewrite !List.filter_app. cbn [List.filter is_connect_call].
  rewrite !List.filter_app.
  rewrite (filter_calls_none is_connect_call s_disconnect) by done.
  rewrite !(filter_settled is_connect_call)
    by (done || apply settle_all_settled).
  rewrite !(filter_concat_nil is_connect_call) by done.
  rewrite (filter_calls_all is_connect_call s_connect) by done.
  cbn [List.filter is_connect_call app].
  rewrite (filter_settled is_connect_call)
    by (done || apply settle_all_settled).
  by rewrite app_nil_r.
Qed.

Lemma connect_builds_and_connects_witness :
  effective_config (Some ftp_config) stale_client = Some ftp_config
  /\ strategies stale_client !! protocol ftp_config = Some FtpStrategy
  /\ (settle_all (seq 0 (length (workers stale_client)))
        (disconnecting {| disconnecting := [(0%nat, fulfilled)];
                          connecting := [(0%nat, rejected (Failure 530))] |})).2
     = Returned tt
  /\ completion (connect (Some ftp_config) None
                   {| disconnecting := [(0%nat, fulfilled)];
                      connecting := [(0%nat, rejected (Failure 530))] |}
                   stale_client) = Thrown (Failure 530)
  /\ length (workers (final (connect (Some ftp_config) None
                   {| disconnecting := [(0%nat, fulfilled)];
                      connecting := [(0%nat, rejected (Failure 530))] |}
                   stale_client))) = 1%nat.
Proof.
  assert (strategies stale_client !! protocol ftp_config = Some FtpStrategy)
    as Hs by (vm_compute; reflexivity).
  split; [reflexivity|]. split; [exact Hs|]. split; [reflexivity|].
  destruct (connect_builds_and_connects (Some ftp_config) None
              {| disconnecting := [(0%nat, fulfilled)];
                 connecting := [(0%nat, rejected (Failure 530))] |}
              stale_client ftp_config FtpStrategy eq_refl Hs eq_refl)
    as (Hc & _ & _ & Hl & _).
  split; [exact Hc | exact Hl].
Defined.

Lemma bind_pending {A B : Type} (m : M A) (k : A -> M B) (c : Client) :
  completion (m c) = Pending ->
  (m ≫= k) c = (Pending, final (m c), steps (m c)).
Proof. intros H. unfold mbind, M_bind. by rewrite H. Qed.

(** X4. When a [disconnect()] of a previous worker rejects or never
    settles, [connect] ends there, as that awaiting ends: nothing has
    been saved, no handler removed, no strategy constructed, and every
    field of the client, the pool included, is as it was. *)
Theorem connect_stops_at_disconnect (config : option IConfig)
    (opts : option IOptions) (env : ConnectEnv) (c : Client) (cfg : IConfig) :
  effective_config config c = Some cfg ->
  (settle_all (seq 0 (length (workers c))) (disconnecting env)).2 <> Returned tt ->
  completion (connect config opts env c) =
    (settle_all (seq 0 (length (workers c))) (disconnecting env)).2
  /\ final (connect config opts env c) = c
  /\ actions (connect config opts env c) =
       map (fun w => Io (Call w s_disconnect)) (workers c)
       ++ Io Suspend
          :: map Io (settle_all (seq 0 (length (workers c)))
                       (disconnecting env)).1.
Proof.
  intros Hcfg Hdis. unfold connect. rewrite bind_this.
  assert (negb (bool_decide (is_Some (_config c)))
          && negb (bool_decide (is_Some config)) = false) as ->.
  { unfold effective_config in Hcfg.
    destruct config; [by rewrite andb_false_r|].
    rewrite Hcfg. reflexivity. }
  assert (actions (disconnect (disconnecting env) c) =
          map (fun w => Io (Call w s_disconnect)) (workers c)
          ++ Io Suspend
             :: map Io (settle_all (seq 0 (length (workers c)))
                          (disconnecting env)).1) as Hact.
  { rewrite disconnect_run. unfold actions, steps, disconnected. cbn [snd].
    rewrite map_app, !map_map. cbn [map act]. done. }
  destruct (settle_all (seq 0 (length (workers c))) (disconnecting env)).2
    as [[]|e|] eqn:Hs; [done| |].
  - rewrite (bind_thrown _ _ _ e) by (by rewrite disconnect_run, Hs).
    fold (actions (disconnect (disconnecting env) c)) in Hact.
    unfold actions at 1. cbn [completion final steps fst snd].
    fold (actions (disconnect (disconnecting env) c)).
    rewrite Hact. by rewrite disconnect_run.
  - rewrite bind_pending by (by rewrite disconnect_run, Hs).
    unfold actions at 1. cbn [completion final steps fst snd].
    fold (actions (disconnect (disconnecting env) c)).
    rewrite Hact. by rewrite disconnect_run.
Qed.

Lemma connect_stops_at_disconnect_witness :
  effective_config None busy_client = Some ftp_config
  /\ (settle_all (seq 0 (length (workers busy_client)))
        (disconnecting {| disconnecting := [(1%nat, rejected (Failure 421))];
                          connecting := [] |})).2 <> Returned tt
  /\ completion (connect None None
                   {| disconnecting := [(1%nat, rejected (Failure 421))];
                      connecting := [] |} busy_client) = Thrown (Failure 421)
  /\ final (connect None None
              {| disconnecting := [(1%nat, rejected (Failure 421))];
                 connecting := [] |} busy_client) = busy_client.
Proof.
  assert ((settle_all (seq 0 (length (workers busy_client)))
             (disconnecting {| disconnecting := [(1%nat, rejected (Failure 421))];
                               connecting := [] |})).2 <> Returned tt) as Hd
    by (vm_compute; discriminate).
  split; [reflexivity|]. split; [exact Hd|].
  destruct (connect_stops_at_disconnect None None
              {| disconnecting := [(1%nat, rejected (Failure 421))];
                 connecting := [] |} busy_client ftp_config eq_refl Hd)
    as (Hc & Hf & _).
  split; [exact Hc | exact Hf].
Defined.

(** X5. A [connect] without arguments after an earlier [connect] works
    with what that one saved: it asks every worker of the current pool
    to disconnect, and the pool it then builds consists of new objects
    (no worker of the previous pool stays) of the same strategy, built
    from the saved config and the saved connection options. *)
Theorem reconnect_reuses_saved (config : option IConfig)
    (opts : option IOptions) (env env2 : ConnectEnv) (c : Client)
    (cfg : IConfig) (cls : StrategyClass) :
  effective_config config c = Some cfg ->
  strategies c !! protocol cfg = Some cls ->
  (settle_all (seq 0 (length (workers c))) (disconnecting env)).2 = Returned tt ->
  (settle_all (seq 0 (Z.to_nat (pool (options c)))) (disconnecting env2)).2
    = Returned tt ->
  let c1 := final (connect config opts env c) in
  let r2 := connect None None env2 c1 in
  completion r2 =
    (settle_all (seq 0 (Z.to_nat (pool (options c)))) (connecting env2)).2
  /\ List.filter is_disconnect_call (actions r2) =
     map (fun w => Io (Call w s_disconnect)) (workers c1)
  /\ length (workers (final r2)) = Z.to_nat (pool (options c))
  /\ Forall (fun w => class w = cls
                      /\ s_config w = Some cfg
                      /\ s_options w = _connectionOptions c1
                      /\ w ∉ workers c1)
       (workers (final r2))
  /\ _config (final r2) = Some cfg
  /\ _connectionOptions (final r2) = _connectionOptions c1.
Proof.
  intros Hcfg Hs Hdis Hdis2. cbv zeta.
  destruct (connect_built config opts env c cfg cls Hcfg Hs Hdis)
    as (_ & Hfin & _).
  cbv zeta in Hfin.
  destruct (saved_fields config opts c) as (Hst & Hop & _ & _ & _).
  set (c1 := final (connect config opts env c)) in *.
  assert (effective_config None c1 = Some cfg) as Hcfg1.
  { unfold effective_config. rewrite Hfin. cbn [_config with_workers with_allocated].
    by rewrite saved_config. }
  assert (strategies c1 = strategies c) as Hst1 by (by rewrite Hfin).
  assert (options c1 = options c) as Hop1 by (by rewrite Hfin).
  assert (allocated c1 = (allocated c + Z.to_nat (pool (options c)))%nat) as Hal1
    by (by rewrite Hfin).
  assert (workers c1 =
          built (allocated c) cfg (_connectionOptions (saved config opts c)) cls
            (Z.to_nat (pool (options c)))) as Hw1 by (by rewrite Hfin).
  assert (strategies c1 !! protocol cfg = Some cls) as Hs1 by (by rewrite Hst1).
  assert ((settle_all (seq 0 (length (workers c1))) (disconnecting env2)).2
          = Returned tt) as Hd1 by (by rewrite Hw1, length_built).
  destruct (connect_built None None env2 c1 cfg cls Hcfg1 Hs1 Hd1)
    as (Hcompl2 & Hfin2 & Hact2).
  cbv zeta in Hcompl2, Hfin2, Hact2. rewrite Hop1 in Hcompl2, Hfin2, Hact2.
  rewrite Hcompl2, Hfin2, Hact2.
  cbn [workers allocated _config _connectionOptions options transfers
       strategies with_workers with_allocated saved].
  split; [done|]. split.
  { rewrite !List.filter_app. cbn [List.filter is_disconnect_call].
    rewrite !List.filter_app.
    rewrite (filter_calls_all is_disconnect_call s_disconnect) by done.
    rewrite (filter_settled is_disconnect_call)
      by (done || apply settle_all_settled).
    rewrite !(filter_concat_nil is_disconnect_call) by done.
    rewrite (filter_calls_none is_disconnect_call s_connect) by done.
    cbn [List.filter is_disconnect_call app].
    rewrite (filter_settled is_disconnect_call)
      by (done || apply settle_all_settled).
    by rewrite !app_nil_r. }
  split; [apply length_built|]. split; [|split; [exact Hcfg1 | done]].
  apply Forall_forall. intros w Hw. unfold built in Hw.
  apply list_elem_of_fmap in Hw as (k & -> & Hk).
  cbn [class s_config s_options]. repeat split.
  intros Hold. rewrite Hw1 in Hold. unfold built in Hold.
  apply list_elem_of_fmap in Hold as (j & Heq & Hj).
  apply elem_of_seq in Hj. apply (f_equal oid) in Heq. cbn [oid] in Heq. lia.
Qed.

Lemma reconnect_reuses_saved_witness :
  effective_config (Some ftp_config) (new_Client (Some 2) None)
    = Some ftp_config
  /\ strategies (new_Client (Some 2) None) !! protocol ftp_config
     = Some FtpStrategy
  /\ (settle_all (seq 0 (length (workers (new_Client (Some 2) None))))
        (disconnecting quiet)).2 = Returned tt
  /\ (settle_all (seq 0 (Z.to_nat (pool (options (new_Client (Some 2) None)))))
        (disconnecting {| disconnecting := [(1%nat, fulfilled); (0%nat, fulfilled)];
                          connecting := [] |})).2 = Returned tt
  /\ _config (final (connect None None
                {| disconnecting := [(1%nat, fulfilled); (0%nat, fulfilled)];
                   connecting := [] |}
                (final (connect (Some ftp_config)
                          (Some {| option_tag := 4 |}) quiet
                          (new_Client (Some 2) None)))))
     = Some ftp_config
  /\ map oid (workers (final (connect None None
                {| disconnecting := [(1%nat, fulfilled); (0%nat, fulfilled)];
                   connecting := [] |}
                (final (connect (Some ftp_config)
                          (Some {| option_tag := 4 |}) quiet
                          (new_Client (Some 2) None))))))
     = [2%nat; 3%nat].
Proof.
  assert (strategies (new_Client (Some 2) None) !! protocol ftp_config
          = Some FtpStrategy) as Hs by (vm_compute; reflexivity).
  split; [reflexivity|]. split; [exact Hs|]. split; [reflexivity|].
  split; [reflexivity|].
  destruct (reconnect_reuses_saved (Some ftp_config)
              (Some {| option_tag := 4 |}) quiet
              {| disconnecting := [(1%nat, fulfilled); (0%nat, fulfilled)];
                 connecting := [] |}
              (new_Client (Some 2) None) ftp_config FtpStrategy
              eq_refl Hs eq_refl eq_refl) as (_ & _ & _ & _ & Hc & _).
  split; [exact Hc | vm_compute; reflexivity].
Defined.

(** ** [abortTransfer], further *)

Lemma getWorkerInstance_None (n : Z) (c : Client) :
  getWorkerInstance n c = None <-> n < 0 \/ Z.of_nat (length (workers c)) <= n.
Proof.
  unfold getWorkerInstance. destruct (Z.ltb_spec n 0) as [Hn|Hn].
  - split; [by left | done].
  - rewrite lookup_ge_None. split; [intros; right; lia | intros [?|?]; lia].
Qed.

Lemma assigned_instances_cons (id : Z) (ids : list Z) (c : Client) :
  assigned_instances (id :: ids) c =
    match JsMap.get id (transfers c) with
    | num n => getWorkerInstance n c :: assigned_instances ids c
    | _ => assigned_instances ids c
    end.
Proof.
  unfold assigned_instances, assigned_indexes. cbn [map].
  destruct (JsMap.get id (transfers c)) as [| |n] eqn:E.
  - by rewrite filter_cons_False by (cbn; discriminate).
  - by rewrite filter_cons_False by (cbn; discriminate).
  - by rewrite filter_cons_True by done.
Qed.

Lemma all_defined_in_range (ids : list Z) (c : Client) :
  (forall id n, id ∈ ids -> JsMap.get id (transfers c) = num n ->
                0 <= n < Z.of_nat (length (workers c))) ->
  all_defined (assigned_instances ids c) = true.
Proof.
  induction ids as [|id ids IH]; intros Hin; [done|].
  rewrite assigned_instances_cons.
  assert (all_defined (assigned_instances ids c) = true) as Hrest.
  { apply IH. intros id' n Hid'. apply Hin. by right. }
  destruct (JsMap.get id (transfers c)) as [| |n] eqn:E; try exact Hrest.
  destruct (getWorkerInstance n c) as [w|] eqn:Hw.
  - cbn [all_defined forallb]. exact Hrest.
  - apply getWorkerInstance_None in Hw.
    specialize (Hin id n ltac:(left) E). lia.
Qed.

Lemma all_defined_stale (ids : list Z) (c : Client) (id : Z) (n : Z) :
  id ∈ ids ->
  JsMap.get id (transfers c) = num n ->
  n < 0 \/ Z.of_nat (length (workers c)) <= n ->
  all_defined (assigned_instances ids c) = false.
Proof.
  intros Hin Hget Hout. induction ids as [|i ids IH].
  - by apply elem_of_nil in Hin.
  - rewrite assigned_instances_cons.
    apply elem_of_cons in Hin as [<-|Hin].
    + rewrite Hget. apply getWorkerInstance_None in Hout. rewrite Hout. done.
    + specialize (IH Hin).
      destruct (JsMap.get i (transfers c)) as [| |m]; try exact IH.
      cbn [all_defined forallb]. fold (all_defined (assigned_instances ids c)).
      rewrite IH. apply andb_false_r.
Qed.

(** X6. When every worker index that the registry holds for the given
    identities lies within the pool, [abortTransfer] throws no error of
    its own: it calls [abort()] once per assigned identity, on the worker
    of that index and in the order of the identities, and ends as the
    awaiting of these calls ends. *)
Theorem abortTransfer_in_range (ids : list Z) (schedule : list (nat * Outcome))
    (c : Client) :
  (forall id n, id ∈ ids -> JsMap.get id (transfers c) = num n ->
                0 <= n < Z.of_nat (length (workers c))) ->
  exists ws : list Strategy,
    map Some ws = assigned_instances ids c
    /\ List.filter is_abort_call (actions (abortTransfer ids schedule c)) =
       map (fun w => Io (Call w s_abort)) ws
    /\ completion (abortTransfer ids schedule c) =
       (settle_all (seq 0 (length ws)) schedule).2.
Proof.
  intros Hin. pose proof (all_defined_in_range ids c Hin) as Hdef.
  exists (invoked (assigned_instances ids c)).
  pose proof (invoked_all_defined _ Hdef) as Hinv.
  split; [exact Hinv|]. split; [apply abortTransfer_abort_calls|].
  destruct (abortTransfer_run ids schedule c) as (_ & -> & _). cbv zeta.
  rewrite Hdef. rewrite <- Hinv at 1. by rewrite length_map.
Qed.

Lemma abortTransfer_in_range_witness :
  (forall id n, id ∈ [3; 7] -> JsMap.get id (transfers busy_client) = num n ->
                0 <= n < Z.of_nat (length (workers busy_client)))
  /\ completion (abortTransfer [3; 7] [(0%nat, rejected (Failure 9))] busy_client)
     = Thrown (Failure 9).
Proof.
  assert (forall id n, id ∈ [3; 7] ->
            JsMap.get id (transfers busy_client) = num n ->
            0 <= n < Z.of_nat (length (workers busy_client))) as Hin.
  { intros id n Hid Hget.
    apply elem_of_cons in Hid as [->|Hid];
      [|apply elem_of_cons in Hid as [->|Hid];
        [|by apply elem_of_nil in Hid]];
      vm_compute in Hget; [|discriminate].
    injection Hget as <-. vm_compute. split; [discriminate | reflexivity]. }
  split; [exact Hin|].
  destruct (abortTransfer_in_range [3; 7] [(0%nat, rejected (Failure 9))]
              busy_client Hin) as (ws & Hws & _ & Hc).
  rewrite Hc. destruct ws as [|w [|w' ws]];
    [vm_compute in Hws; discriminate | reflexivity
     | vm_compute in Hws; discriminate].
Defined.

(** X7. When the registry holds, for one of the given identities, an
    index outside the pool, [abortTransfer] throws a [TypeError] from
    [instances.map]: by then it has emitted the notifications and called
    [deleteTasks] and [pauseWorkers], and it never calls [resumeWorkers],
    so the paused indexes stay paused. *)
Theorem abortTransfer_stale_index (ids : list Z)
    (schedule : list (nat * Outcome)) (c : Client) (id : Z) (n : Z) :
  id ∈ ids ->
  JsMap.get id (transfers c) = num n ->
  n < 0 \/ Z.of_nat (length (workers c)) <= n ->
  completion (abortTransfer ids schedule c) =
    Thrown (TypeError "Cannot read properties of undefined (reading 'abort')")
  /\ In (Tasks (tasks_deleteTasks ids)) (actions (abortTransfer ids schedule c))
  /\ In (Tasks (tasks_pauseWorkers (assigned_indexes ids c)))
       (actions (abortTransfer ids schedule c))
  /\ num n ∈ assigned_indexes ids c
  /\ List.filter is_resume_call (actions (abortTransfer ids schedule c)) = []
  /\ ~ In (Io Suspend) (actions (abortTransfer ids schedule c)).
Proof.
  intros Hin Hget Hout.
  pose proof (all_defined_stale ids c id n Hin Hget Hout) as Hdef.
  pose proof (abortTransfer_resume_calls ids schedule c) as Hres.
  destruct (abortTransfer_run ids schedule c) as (_ & Hc & Ha).
  cbv zeta in Hc, Ha. rewrite Hdef in Hc, Ha. rewrite Hc in Hres.
  split; [exact Hc|]. rewrite Ha.
  split; [apply in_or_app; right; by left|].
  split; [apply in_or_app; right; right; by left|].
  split.
  { unfold assigned_indexes. apply list_elem_of_fmap. exists id.
    by rewrite Hget. }
  split; [by rewrite <- Ha|].
  intros H. apply in_app_or in H as [H|H].
  { apply in_map_iff in H as (? & ? & _). discriminate. }
  destruct H as [H|[H|H]]; try discriminate.
  rewrite app_nil_r in H. apply in_map_iff in H as (? & ? & _). discriminate.
Qed.

Lemma abortTransfer_stale_index_witness :
  3 ∈ [3]
  /\ JsMap.get 3 (transfers (with_workers [] busy_client)) = num 1
  /\ (1 < 0 \/ Z.of_nat (length (workers (with_workers [] busy_client))) <= 1)
  /\ actions (abortTransfer [3] [] (with_workers [] busy_client)) =
       [Emit (transfer_abort [3]);
        Tasks (tasks_deleteTasks [3]);
        Tasks (tasks_pauseWorkers [num 1])]
  /\ completion (abortTransfer [3] [] (with_workers [] busy_client)) =
       Thrown (TypeError "Cannot read properties of undefined (reading 'abort')").
Proof.
  assert (3 ∈ [3]) as Hin by left.
  assert (1 < 0 \/ Z.of_nat (length (workers (with_workers [] busy_client))) <= 1)
    as Hout by (right; simpl; lia).
  split; [exact Hin|]. split; [reflexivity|]. split; [exact Hout|].
  split; [vm_compute; reflexivity|].
  exact (proj1 (abortTransfer_stale_index [3] [] (with_workers [] busy_client)
                  3 1 Hin eq_refl Hout)).
Defined.

Lemma filter_emit_aborts (ids : list Z) :
  List.filter is_emit (map (fun id => Emit (transfer_abort [id])) ids) =
  map (fun id => Emit (transfer_abort [id])) ids.
Proof. induction ids as [|i ids IH]; [done|]. cbn. by rewrite IH. Qed.

Lemma filter_emits_none (P : Action -> bool) (ids : list Z) :
  (forall n, P (Emit n) = false) ->
  List.filter P (map (fun id => Emit (transfer_abort [id])) ids) = [].
Proof.
  intros HP. induction ids as [|i ids IH]; [done|].
  cbn [map List.filter]. by rewrite HP.
Qed.

(** X8. [abortTransfer] emits one 'transfer-abort' notification per
    given identity, each carrying that identity alone, in the order
    given, also for an identity that the registry does not know and once
    per repetition; it emits nothing else, hands exactly the given
    identities to [deleteTasks], and changes no field of the client: the
    registry entries of the aborted transfers stay until the transfers
    settle. *)
Theorem abortTransfer_notifies_each (ids : list Z)
    (schedule : list (nat * Outcome)) (c : Client) :
  List.filter is_emit (actions (abortTransfer ids schedule c)) =
    map (fun id => Emit (transfer_abort [id])) ids
  /\ List.filter is_deleteTasks_call (actions (abortTransfer ids schedule c)) =
     [Tasks (tasks_deleteTasks ids)]
  /\ final (abortTransfer ids schedule c) = c.
Proof.
  destruct (abortTransfer_run ids schedule c) as (Hf & _ & Ha).
  cbv zeta in Ha. rewrite Ha. split; [|split; [|exact Hf]].
  - rewrite !List.filter_app, filter_emit_aborts.
    rewrite (filter_io_map is_emit) by done.
    cbn [List.filter is_emit app].
    destruct (all_defined _); [|by rewrite !app_nil_r].
    cbn [List.filter is_emit]. rewrite List.filter_app.
    rewrite (filter_io_plain is_emit) by done.
    destruct (settle_all _ _).2; cbn; by rewrite !app_nil_r.
  - rewrite !List.filter_app.
    rewrite (filter_io_map is_deleteTasks_call) by done.
    rewrite (filter_emits_none is_deleteTasks_call) by done.
    cbn [List.filter is_deleteTasks_call app].
    destruct (all_defined _); [|done].
    cbn [List.filter is_deleteTasks_call]. rewrite List.filter_app.
    rewrite (filter_io_plain is_deleteTasks_call) by done.
    by destruct (settle_all _ _).2.
Qed.

(** X9. When none of the given identities has a worker index in the
    registry (also when no identity is given), [abortTransfer] calls no
    strategy at all and always returns: after the notifications and
    [deleteTasks] it pauses and, past the await, resumes the list of
    [null] and [undefined] values it has read. *)
Theorem abortTransfer_nothing_assigned (ids : list Z)
    (schedule : list (nat * Outcome)) (c : Client) :
  Forall (fun id => not_nullish (JsMap.get id (transfers c)) = false) ids ->
  completion (abortTransfer ids schedule c) = Returned tt
  /\ actions (abortTransfer ids schedule c) =
       map (fun id => Emit (transfer_abort [id])) ids
       ++ [Tasks (tasks_deleteTasks ids);
           Tasks (tasks_pauseWorkers (assigned_indexes ids c));
           Io Suspend;
           Tasks (tasks_resumeWorkers (assigned_indexes ids c))]
  /\ Forall (fun x => x = null \/ x = undefined) (assigned_indexes ids c).
Proof.
  intros Hall.
  assert (assigned_instances ids c = []) as Hnone.
  { induction Hall as [|id ids Hid _ IH]; [done|].
    rewrite assigned_instances_cons.
    by destruct (JsMap.get id (transfers c)). }
  destruct (abortTransfer_run ids schedule c) as (_ & Hc & Ha).
  cbv zeta in Hc, Ha. rewrite Hnone in Hc, Ha.
  cbn [all_defined forallb invoked map length seq app] in Hc, Ha.
  rewrite settle_all_nil in Hc, Ha. cbn [fst snd map app] in Hc, Ha.
  split; [exact Hc|]. split; [exact Ha|].
  unfold assigned_indexes. apply Forall_fmap.
  eapply Forall_impl; [exact Hall|]. intros id Hid. cbn in Hid |- *.
  destruct (JsMap.get id (transfers c)); [by right | by left | discriminate Hid].
Qed.

Lemma abortTransfer_nothing_assigned_witness :
  Forall (fun id => not_nullish (JsMap.get id (transfers busy_client)) = false)
    [7; 8]
  /\ actions (abortTransfer [7; 8] [] busy_client) =
       [Emit (transfer_abort [7]);
        Emit (transfer_abort [8]);
        Tasks (tasks_deleteTasks [7; 8]);
        Tasks (tasks_pauseWorkers [null; undefined]);
        Io Suspend;
        Tasks (tasks_resumeWorkers [null; undefined])].
Proof.
  assert (Forall (fun id => not_nullish (JsMap.get id (transfers busy_client))
                            = false) [7; 8]) as Hall
    by (repeat constructor).
  split; [exact Hall|].
  exact (proj1 (proj2 (abortTransfer_nothing_assigned [7; 8] [] busy_client Hall))).
Defined.

(** ** Transfers, further *)

Lemma JsMap_set_fresh k v m :
  JsMap.has k m = false -> JsMap.set k v m = m ++ [(k, v)].
Proof.
  induction m as [|[k' v'] m IH]; simpl; [done|].
  destruct (Z.eqb k k'); [discriminate|]. intros H. by rewrite IH.
Qed.

Lemma JsMap_delete_fresh k m :
  JsMap.has k m = false -> JsMap.delete k m = m.
Proof.
  induction m as [|[k' v'] m IH]; simpl; [done|].
  destruct (Z.eqb k k'); [discriminate|]. intros H. by rewrite IH.
Qed.

Lemma JsMap_set_set k v v' m :
  JsMap.set k v' (JsMap.set k v m) = JsMap.set k v' m.
Proof.
  induction m as [|[k' w] m IH]; simpl.
  - by rewrite Z.eqb_refl.
  - destruct (Z.eqb k k') eqn:E; simpl.
    + by rewrite Z.eqb_refl.
    + by rewrite E, IH.
Qed.

Lemma JsMap_delete_set_fresh k v m :
  JsMap.has k m = false -> JsMap.delete k (JsMap.set k v m) = m.
Proof.
  induction m as [|[k' v'] m IH]; simpl.
  - by rewrite Z.eqb_refl.
  - destruct (Z.eqb k k') eqn:E; [discriminate|]. intros H.
    simpl. by rewrite E, IH.
Qed.

Lemma with_transfers_twice (m1 m2 : JsMap.t) (c : Client) :
  with_transfers m1 (with_transfers m2 c) = with_transfers m1 c.
Proof. reflexivity. Qed.

Lemma with_transfers_same (c : Client) : with_transfers (transfers c) c = c.
Proof. by destruct c. Qed.

(** The fields after a run of [handleTransfer] whose identity was not in
    the registry. *)
Lemma handleTransfer_final_fresh (fn : TaskEvent -> Op unit)
    (direction : ITransferDirection) (env : TransferEnv) (c : Client) :
  JsMap.has (new_id env) (transfers c) = false ->
  final (handleTransfer fn direction env c) =
    match completion (handleTransfer fn direction env c) with
    | Pending =>
        with_transfers
          (transfers c
           ++ [(new_id env,
                if scheduling env is dispatch i then num i else null)])
          c
    | _ => c
    end.
Proof.
  intros Hfresh. destruct (scheduling env) as [i|e|] eqn:Hs.
  - rewrite (handleTransfer_dispatch _ _ _ _ i Hs). cbv zeta.
    unfold completion, final. cbn [fst snd].
    unfold settled_state, dispatched_state, announced_state.
    cbn [transfers with_transfers].
    rewrite !with_transfers_twice, JsMap_set_set.
    destruct (fn (task_event i env c)).2.
    + rewrite JsMap_delete_set_fresh by done. apply with_transfers_same.
    + rewrite JsMap_delete_set_fresh by done. apply with_transfers_same.
    + by rewrite JsMap_set_fresh.
  - rewrite (handleTransfer_cancel _ _ _ _ e Hs).
    unfold completion, final. cbn [fst snd].
    unfold settled_state, announced_state. cbn [transfers with_transfers].
    rewrite !with_transfers_twice.
    rewrite JsMap_delete_set_fresh by done. apply with_transfers_same.
  - rewrite (handleTransfer_starve _ _ _ _ Hs).
    unfold completion, final. cbn [fst snd].
    unfold announced_state. by rewrite JsMap_set_fresh.
Qed.

(** X10. A transfer whose identity is not yet in the registry leaves the
    client, once it has settled (returned, failed or been cancelled),
    exactly as it found it: the registry is the same map with the same
    order of keys and no other field has changed.  While it is pending
    the registry is the previous one with the new identity appended as
    its last key. *)
Theorem handleTransfer_restores_registry (fn : TaskEvent -> Op unit)
    (direction : ITransferDirection) (env : TransferEnv) (c : Client) :
  JsMap.has (new_id env) (transfers c) = false ->
  match completion (handleTransfer fn direction env c) with
  | Pending =>
      JsMap.keys (transfers (final (handleTransfer fn direction env c))) =
        JsMap.keys (transfers c) ++ [new_id env]
      /\ forall other : Z,
           other <> new_id env ->
           JsMap.get other (transfers (final (handleTransfer fn direction env c)))
           = JsMap.get other (transfers c)
  | _ => final (handleTransfer fn direction env c) = c
  end.
Proof.
  intros Hfresh. rewrite (handleTransfer_final_fresh _ _ _ _ Hfresh).
  destruct (completion (handleTransfer fn direction env c)); try done.
  cbn [transfers with_transfers]. split.
  - unfold JsMap.keys. by rewrite map_app.
  - intros other Hne.
    rewrite <- (JsMap_set_fresh (new_id env) _ (transfers c) Hfresh).
    by apply JsMap_get_set_ne.
Qed.

Lemma handleTransfer_restores_registry_witness :
  JsMap.has (new_id {| new_id := 9; scheduling := cancel (Failure 0) |})
    (transfers busy_client) = false
  /\ final (handleTransfer (fun _ => mret tt)
              {| dir_remotePath := "/r"; dir_localPath := "l" |}
              {| new_id := 9; scheduling := cancel (Failure 0) |} busy_client)
     = busy_client.
Proof.
  split; [reflexivity|].
  exact (handleTransfer_restores_registry (fun _ => mret tt)
           {| dir_remotePath := "/r"; dir_localPath := "l" |}
           {| new_id := 9; scheduling := cancel (Failure 0) |} busy_client
           eq_refl).
Defined.

(** The run of the global [abort]. *)
Lemma abort_run (schedule : list (nat * Outcome)) (c : Client) :
  actions (abort schedule c) =
    Emit (transfer_abort (JsMap.keys (transfers c)))
    :: Tasks tasks_deleteAllTasks
    :: map (fun w => Io (Call w s_abort)) (workers c)
    ++ Io Suspend
       :: map Io (settle_all (seq 0 (length (workers c))) schedule).1.
Proof.
  unfold abort. rewrite bind_this, !bind_perform.
  rewrite (bind_returned _ _ _ tt) by (by rewrite forEach_perform).
  rewrite forEach_perform, await_all_run.
  rewrite !actions_prefixed. unfold actions, steps. cbn [fst snd map act].
  rewrite !map_map. cbn [act]. reflexivity.
Qed.

(** X11. The 'transfer-abort' notification of a global [abort] lists a
    transfer exactly while it is announced and not settled: called after
    a run of [handleTransfer] with a fresh identity that is still
    pending, [abort] emits the earlier keys followed by the new
    identity; called after that transfer has settled, it emits the
    earlier keys alone. *)
Theorem abort_lists_transfers_in_flight (fn : TaskEvent -> Op unit)
    (direction : ITransferDirection) (env : TransferEnv)
    (schedule : list (nat * Outcome)) (c : Client) :
  JsMap.has (new_id env) (transfers c) = false ->
  head (actions (abort schedule (final (handleTransfer fn direction env c)))) =
    Some (Emit (transfer_abort
                  (match completion (handleTransfer fn direction env c) with
                   | Pending => JsMap.keys (transfers c) ++ [new_id env]
                   | _ => JsMap.keys (transfers c)
                   end))).
Proof.
  intros Hfresh. rewrite abort_run. cbn [head].
  rewrite (handleTransfer_final_fresh _ _ _ _ Hfresh).
  destruct (completion (handleTransfer fn direction env c)); try done.
  cbn [transfers with_transfers]. unfold JsMap.keys. by rewrite map_app.
Qed.

Lemma abort_lists_transfers_in_flight_witness :
  JsMap.has (new_id {| new_id := 9; scheduling := starve |})
    (transfers busy_client) = false
  /\ head (actions (abort []
             (final (handleTransfer (fun _ => mret tt)
                       {| dir_remotePath := "/r"; dir_localPath := "l" |}
                       {| new_id := 9; scheduling := starve |} busy_client))))
     = Some (Emit (transfer_abort [3; 7; 9])).
Proof.
  split; [reflexivity|].
  exact (abort_lists_transfers_in_flight (fun _ => mret tt)
           {| dir_remotePath := "/r"; dir_localPath := "l" |}
           {| new_id := 9; scheduling := starve |} [] busy_client eq_refl).
Defined.

(** X12. Aborting a transfer that is running reaches the worker it runs
    on: after [handleTransfer] has been dispatched to the worker of
    index [i] and while its operation is pending, [abortTransfer] with
    that identity pauses index [i], calls [abort()] on that worker and on
    no other, and ends as the awaiting of this one call ends. *)
Theorem abortTransfer_reaches_running_worker (fn : TaskEvent -> Op unit)
    (direction : ITransferDirection) (env : TransferEnv)
    (schedule : list (nat * Outcome)) (c : Client) (i : Z) (w : Strategy) :
  scheduling env = dispatch i ->
  getWorkerInstance i c = Some w ->
  (fn (task_event i env c)).2 = Pending ->
  let c' := final (handleTransfer fn direction env c) in
  actions (abortTransfer [new_id env] schedule c') =
    [Emit (transfer_abort [new_id env]);
     Tasks (tasks_deleteTasks [new_id env]);
     Tasks (tasks_pauseWorkers [num i]);
     Io (Call w s_abort);
     Io Suspend]
    ++ map Io (settle_all [0%nat] schedule).1
    ++ (if (settle_all [0%nat] schedule).2 is Returned _
        then [Tasks (tasks_resumeWorkers [num i])] else [])
  /\ completion (abortTransfer [new_id env] schedule c') =
     (settle_all [0%nat] schedule).2.
Proof.
  intros Hs Hw Hpend. cbv zeta.
  pose proof (handleTransfer_dispatch fn direction env c i Hs) as Hrun.
  cbv zeta in Hrun. rewrite Hpend in Hrun. rewrite Hrun.
  cbn [final fst snd].
  set (c' := dispatched_state i env (announced_state env c)).
  assert (JsMap.get (new_id env) (transfers c') = num i) as Hget
    by apply JsMap_get_set_eq.
  assert (getWorkerInstance i c' = Some w) as Hw' by exact Hw.
  destruct (abortTransfer_run [new_id env] schedule c') as (_ & Hc & Ha).
  cbv zeta in Hc, Ha.
  assert (assigned_indexes [new_id env] c' = [num i]) as Hidx
    by (unfold assigned_indexes; cbn [map]; by rewrite Hget).
  assert (assigned_instances [new_id env] c' = [Some w]) as Hins.
  { unfold assigned_instances. rewrite Hidx.
    rewrite filter_cons_True by done. cbn [map worker_at filter].
    by rewrite Hw'. }
  rewrite Hidx, Hins in Ha. rewrite Hins in Hc.
  cbn [all_defined forallb invoked map length seq app andb] in Hc, Ha.
  split; [exact Ha | exact Hc].
Qed.

Lemma abortTransfer_reaches_running_worker_witness :
  scheduling {| new_id := 9; scheduling := dispatch 0 |} = dispatch 0
  /\ (exists w, getWorkerInstance 0 busy_client = Some w /\ oid w = 0%nat)
  /\ List.filter is_abort_call
       (actions (abortTransfer [9] [(0%nat, fulfilled)]
                   (final (download (inl "a.bin") "/pub/a.bin" None
                             {| size_result := None; transfer_result := None |}
                             {| new_id := 9; scheduling := dispatch 0 |}
                             busy_client))))
     = map (fun w => Io (Call w s_abort)) (take 1 (workers busy_client)).
Proof.
  destruct (getWorkerInstance 0 busy_client) as [w|] eqn:Hw;
    [|vm_compute in Hw; discriminate].
  split; [reflexivity|].
  split; [exists w; split; [reflexivity|]; vm_compute in Hw;
          by injection Hw as <-|].
  destruct (abortTransfer_reaches_running_worker
              (download_fn (download_stream (inl "a.bin") None)
                 (local_path (inl "a.bin")) "/pub/a.bin" None
                 {| size_result := None; transfer_result := None |})
              {| dir_remotePath := "/pub/a.bin";
                 dir_localPath := local_path (inl "a.bin") |}
              {| new_id := 9; scheduling := dispatch 0 |}
              [(0%nat, fulfilled)] busy_client 0 w eq_refl Hw)
    as [Ha _].
  { unfold task_event, download_fn. cbn [instance]. rewrite Hw. reflexivity. }
  rewrite (download_opens (inl "a.bin") _ None _ _ eq_refl).
  cbn [new_id] in Ha. rewrite Ha.
  vm_compute in Hw. injection Hw as <-. vm_compute. reflexivity.
Defined.

Lemma workerFilter_groups (g : option string) (p : Z) (flag : option bool)
    (b_all b_misc b_transfer : bool) :
  workerFilter {| group := label All |} g = b_all ->
  workerFilter {| group := label Misc |} g = b_misc ->
  workerFilter {| group := label Transfer |} g = b_transfer ->
  map (fun l => workerFilter {| group := label l |} g) (groups p flag) =
    if negb (truthy_flag flag) || (p =? 1)
    then replicate (Z.to_nat p) b_all
    else b_misc :: replicate (Z.to_nat (p - 1)) b_transfer.
Proof.
  intros Ha Hm Ht. unfold groups, repeat.
  destruct (negb (truthy_flag flag) || (p =? 1)).
  - induction (Z.to_nat p) as [|n IH]; [done|].
    cbn [replicate map]. by rewrite Ha, IH.
  - cbn [map]. rewrite Hm. f_equal.
    induction (Z.to_nat (p - 1)) as [|n IH]; [done|].
    cbn [replicate map]. by rewrite Ht, IH.
Qed.

Lemma handleTransfer_handle_call (fn : TaskEvent -> Op unit)
    (direction : ITransferDirection) (env : TransferEnv) (c : Client) :
  List.filter is_handle_call (actions (handleTransfer fn direction env c)) =
    [Tasks (tasks_handle (Some "transfer-transfer") (Some (new_id env)))].
Proof.
  destruct (scheduling env) as [i|e|] eqn:Hs.
  - rewrite (handleTransfer_dispatch _ _ _ _ i Hs). cbv zeta.
    unfold actions, steps. cbn [snd].
    rewrite !map_app, !List.filter_app, filter_io by done.
    cbn [map act List.filter is_handle_call app].
    by destruct (fn (task_event i env c)).2.
  - by rewrite (handleTransfer_cancel _ _ _ _ e Hs).
  - by rewrite (handleTransfer_starve _ _ _ _ Hs).
Qed.

(** X13. Every transfer is handed to the scheduler once, with its own
    identity and with the group 'transfer-transfer'.  Against the labels
    that [setWorkerGroups] gives to a pool, [workerFilter] accepts that
    group on every worker when pooled transfers are off or the pool size
    is 1 (all labels are 'all'), and on no worker when pooled transfers
    are on and the pool size is not 1 (labels 'misc' and 'transfer'). *)
Theorem transfer_group_in_pool (fn : TaskEvent -> Op unit)
    (direction : ITransferDirection) (env : TransferEnv) (c : Client)
    (p : Z) (flag : option bool) :
  List.filter is_handle_call (actions (handleTransfer fn direction env c)) =
    [Tasks (tasks_handle (Some "transfer-transfer") (Some (new_id env)))]
  /\ map (fun l => workerFilter {| group := label l |} (Some "transfer-transfer"))
       (groups p flag) =
     if negb (truthy_flag flag) || (p =? 1)
     then replicate (Z.to_nat p) true
     else replicate (S (Z.to_nat (p - 1))) false.
Proof.
  split; [apply handleTransfer_handle_call|].
  by rewrite (workerFilter_groups _ p flag true false false).
Qed.








(** ** The protocol table *)

(** X17. For every name [p] but '__proto__': after
    [registerProtocol(p, S)], [createWorker] for a config with protocol
    [p] constructs an instance of [S] from the saved config and options,
    whatever was registered for [p] before and also when [p] names a
    member that the table inherits.  Registering or unregistering [p]
    changes nothing for a config with another protocol.  After
    [unregisterProtocol(p)] the table answers for [p] with what it
    inherits: [createWorker] reports the missing strategy only when [p]
    is no inherited name; for 'constructor' it gives back the config,
    and for another inherited name [new] fails. *)
Theorem protocol_registry (p : string) (s : StrategyClass) (c : Client)
    (cfg : IConfig) :
  _config c = Some cfg ->
  p <> "__proto__" ->
  exists c' : Client,
    registerProtocol p s c = Some c'
    /\ (protocol cfg = p ->
        completion (createWorker c') =
          Returned (instance_of {| oid := allocated c; class := s;
                                   s_config := Some cfg;
                                   s_options := _connectionOptions c |}))
    /\ (protocol cfg <> p ->
        completion (createWorker c') = completion (createWorker c)
        /\ completion (createWorker (unregisterProtocol p c)) =
             completion (createWorker c))
    /\ (protocol cfg = p ->
        completion (createWorker (unregisterProtocol p c')) =
          if bool_decide (p = "constructor") then Returned (the_config cfg)
          else if bool_decide (p ∈ object_prototype_names)
               then Thrown (TypeError "strategy is not a constructor")
               else Thrown (strategy_not_found p)).
Proof.
  intros Hc Hproto. unfold registerProtocol.
  rewrite bool_decide_eq_false_2 by done.
  eexists. split; [reflexivity|]. split; [|split].
  - intros Hp.
    pose proof (createWorker_found
                  (with_strategies (<[p := s]> (strategies c)) c) cfg s Hc)
      as Hw.
    cbv zeta in Hw. rewrite Hw; [done|].
    rewrite Hp. apply lookup_insert_eq.
  - intros Hp. split.
    + apply (createWorker_completion_ext _ _ cfg); try done.
      cbn [strategies with_strategies]. by rewrite lookup_insert_ne.
    + apply (createWorker_completion_ext _ _ cfg); try done.
      unfold unregisterProtocol. cbn [strategies with_strategies].
      by rewrite lookup_delete_ne.
  - intros Hp. unfold createWorker, unregisterProtocol. rewrite bind_this.
    cbn [_config with_strategies]. rewrite Hc.
    unfold strategy_of. cbn [strategies with_strategies].
    rewrite Hp, lookup_delete_eq.
    case_bool_decide; [done|]. by case_bool_decide.
Qed.

Lemma protocol_registry_witness :
  _config (with_config (Some http_config) (new_Client None None))
    = Some http_config
  /\ "http" <> "__proto__"
  /\ exists c' : Client,
       registerProtocol "http" (CustomStrategy "HttpStrategy")
         (with_config (Some http_config) (new_Client None None)) = Some c'
       /\ completion (createWorker c') =
            Returned (instance_of
                        {| oid := 0; class := CustomStrategy "HttpStrategy";
                           s_config := Some http_config; s_options := None |})
       /\ completion (createWorker (unregisterProtocol "http" c')) =
            Thrown (mkError "Strategy for protocol http not found.").
Proof.
  split; [reflexivity|]. split; [discriminate|].
  destruct (protocol_registry "http" (CustomStrategy "HttpStrategy")
              (with_config (Some http_config) (new_Client None None))
              http_config eq_refl) as (c' & Hreg & Hnew & _ & Hback);
    [discriminate|].
  exists c'. split; [exact Hreg|]. split; [exact (Hnew eq_refl)|].
  exact (Hback eq_refl).
Defined.

(** Registered under an inherited name, a strategy hides the inherited
    member; unregistered, the member is back. *)
Example registry_inherited_name :
  exists c' : Client,
    registerProtocol "toString" SftpStrategy
      (with_config (Some {| protocol := "toString"; host := "example.org" |})
         (new_Client None None)) = Some c'
    /\ (exists w, completion (createWorker c') = Returned (instance_of w)
                  /\ class w = SftpStrategy)
    /\ completion (createWorker (unregisterProtocol "toString" c')) =
       Thrown (TypeError "strategy is not a constructor")
    /\ registerProtocol "__proto__" SftpStrategy (new_Client None None) = None.
Proof. eexists. vm_compute. split; [done|]. split; [by eexists|done]. Qed.

(** ** The pool by index *)

Lemma lookup_built (a : nat) (cfg : IConfig) (opts : option IOptions)
    (cls : StrategyClass) (n k : nat) :
  (k < n)%nat ->
  built a cfg opts cls n !! k =
    Some {| oid := (a + k)%nat; class := cls; s_config := Some cfg;
            s_options := opts |}.
Proof.
  intros Hk. unfold built. rewrite list_lookup_fmap.
  by rewrite lookup_seq_lt.
Qed.

(** X19. After [setWorkers] has built the pool (a strategy being
    registered for the protocol), [getWorkerInstance(i)] is a worker
    exactly for the indexes [0 <= i < pool], and it is the worker that
    the [i]-th round of the loop constructed; for every other index,
    negative ones included, it is [undefined]. *)
Theorem getWorkerInstance_of_pool (c : Client) (cfg : IConfig)
    (cls : StrategyClass) (i : Z) :
  _config c = Some cfg ->
  strategies c !! protocol cfg = Some cls ->
  getWorkerInstance i (final (setWorkers c)) =
    if (0 <=? i) && (i <? Z.of_nat (Z.to_nat (pool (options c))))
    then Some {| oid := (allocated c + Z.to_nat i)%nat; class := cls;
                 s_config := Some cfg; s_options := _connectionOptions c |}
    else None.
Proof.
  intros Hc Hs.
  destruct (setWorkers_run c cfg cls Hc Hs) as (_ & -> & _).
  unfold getWorkerInstance. cbn [workers with_workers].
  destruct (Z.ltb_spec i 0) as [Hneg|Hpos].
  - by replace (0 <=? i) with false by (symmetry; apply Z.leb_gt; lia).
  - replace (0 <=? i) with true by (symmetry; apply Z.leb_le; lia).
    cbn [andb].
    destruct (Z.ltb_spec i (Z.of_nat (Z.to_nat (pool (options c))))) as [Hin|Hout].
    + apply lookup_built. lia.
    + apply lookup_ge_None. rewrite length_built. lia.
Qed.

Lemma getWorkerInstance_of_pool_witness :
  _config unconnected_client = Some ftp_config
  /\ strategies unconnected_client !! protocol ftp_config = Some FtpStrategy
  /\ getWorkerInstance 1 (final (setWorkers unconnected_client)) =
       Some {| oid := 1; class := FtpStrategy; s_config := Some ftp_config;
               s_options := None |}
  /\ getWorkerInstance 2 (final (setWorkers unconnected_client)) = None
  /\ getWorkerInstance (-1) (final (setWorkers unconnected_client)) = None.
Proof.
  assert (strategies unconnected_client !! protocol ftp_config
          = Some FtpStrategy) as Hs by (vm_compute; reflexivity).
  split; [reflexivity|]. split; [exact Hs|].
  split; [|split].
  - exact (getWorkerInstance_of_pool unconnected_client ftp_config FtpStrategy
             1 eq_refl Hs).
  - exact (getWorkerInstance_of_pool unconnected_client ftp_config FtpStrategy
             2 eq_refl Hs).
  - exact (getWorkerInstance_of_pool unconnected_client ftp_config FtpStrategy
             (-1) eq_refl Hs).
Defined.

(** X20. [connect] does not touch the registry: an entry that assigns a
    transfer to the index [n] of the previous pool survives a reconnect,
    and [abortTransfer] for that identity then calls [abort()] on the
    worker that stands at index [n] of the new pool, an object
    constructed by this [connect], not on the worker that the transfer
    was dispatched to. *)
Theorem abortTransfer_after_reconnect (config : option IConfig)
    (opts : option IOptions) (env : ConnectEnv)
    (schedule : list (nat * Outcome)) (c : Client) (cfg : IConfig)
    (cls : StrategyClass) (id : Z) (n : Z) :
  effective_config config c = Some cfg ->
  strategies c !! protocol cfg = Some cls ->
  (settle_all (seq 0 (length (workers c))) (disconnecting env)).2 = Returned tt ->
  JsMap.get id (transfers c) = num n ->
  0 <= n < Z.of_nat (Z.to_nat (pool (options c))) ->
  let c' := final (connect config opts env c) in
  JsMap.get id (transfers c') = num n
  /\ exists w : Strategy,
       getWorkerInstance n c' = Some w
       /\ (allocated c <= oid w)%nat
       /\ List.filter is_abort_call (actions (abortTransfer [id] schedule c')) =
          [Io (Call w s_abort)].
Proof.
  intros Hcfg Hs Hdis Hget Hn. cbv zeta.
  destruct (connect_built config opts env c cfg cls Hcfg Hs Hdis)
    as (_ & Hfin & _).
  cbv zeta in Hfin. rewrite Hfin.
  destruct (saved_fields config opts c) as (_ & _ & _ & Htr & _).
  set (c' := with_workers _ _).
  assert (JsMap.get id (transfers c') = num n) as Hget'
    by (subst c'; cbn [transfers with_workers with_allocated];
        by rewrite Htr).
  split; [exact Hget'|].
  assert (getWorkerInstance n c' =
          Some {| oid := (allocated c + Z.to_nat n)%nat; class := cls;
                  s_config := Some cfg;
                  s_options := _connectionOptions (saved config opts c) |})
    as Hw.
  { unfold getWorkerInstance. subst c'. cbn [workers with_workers].
    destruct (Z.ltb_spec n 0) as [?|_]; [lia|]. apply lookup_built. lia. }
  eexists. split; [exact Hw|]. split; [cbn [oid]; lia|].
  rewrite abortTransfer_abort_calls.
  rewrite assigned_instances_cons, Hget', Hw. reflexivity.
Qed.

Lemma abortTransfer_after_reconnect_witness :
  effective_config None busy_client = Some ftp_config
  /\ strategies busy_client !! protocol ftp_config = Some FtpStrategy
  /\ (settle_all (seq 0 (length (workers busy_client)))
        (disconnecting {| disconnecting := [(0%nat, fulfilled); (1%nat, fulfilled)];
                          connecting := [] |})).2 = Returned tt
  /\ JsMap.get 3 (transfers busy_client) = num 1
  /\ 0 <= 1 < Z.of_nat (Z.to_nat (pool (options busy_client)))
  /\ map oid (workers busy_client) = [0%nat; 1%nat]
  /\ exists w : Strategy,
       List.filter is_abort_call
         (actions (abortTransfer [3] []
                     (final (connect None None
                               {| disconnecting := [(0%nat, fulfilled);
                                                    (1%nat, fulfilled)];
                                  connecting := [] |} busy_client))))
       = [Io (Call w s_abort)]
       /\ (2 <= oid w)%nat.
Proof.
  assert (strategies busy_client !! protocol ftp_config = Some FtpStrategy)
    as Hs by (vm_compute; reflexivity).
  assert (0 <= 1 < Z.of_nat (Z.to_nat (pool (options busy_client)))) as Hn
    by (vm_compute; split; [discriminate | reflexivity]).
  split; [reflexivity|]. split; [exact Hs|]. split; [reflexivity|].
  split; [reflexivity|]. split; [exact Hn|]. split; [vm_compute; reflexivity|].
  destruct (abortTransfer_after_reconnect None None
              {| disconnecting := [(0%nat, fulfilled); (1%nat, fulfilled)];
                 connecting := [] |} [] busy_client ftp_config FtpStrategy 3 1
              eq_refl Hs eq_refl eq_refl Hn)
    as (_ & w & _ & Hoid & Hcalls).
  exists w. split; [exact Hcalls | exact Hoid].
Defined.
